(** * Text-to-speech command-line scripts: embedding and properties

    The repository holds three scripts, [1-tts.py], [2-tts.py] and
    [3-tts.py].  Each parses three command-line arguments, checks that an
    API credential is present in the environment, asks a remote endpoint to
    synthesise speech and writes the returned bytes to a file.  The first two
    go through an SDK client object, the third issues the HTTPS POST itself.

    The embedding is shallow.  Python [str] values are Rocq strings (the
    UTF-8 bytes of the text), [bytes] values are lists of bytes, the process
    environment and the file system are finite maps, and everything outside
    the scripts (the endpoint and the time it takes, the SDK, the outcome of
    opening a file, what standard output can encode) is an input of the
    model, bundled in a record [World]. *)

From Stdlib Require Import ZArith NArith Ascii String List Bool Lia.
From Stdlib Require Import SpecFloat.
From stdpp Require Import base option list strings gmap pretty.

Local Open Scope Z_scope.

(** Python [bytes]. *)
Abbreviation bytes := (list Byte.byte).

(** A value that a store action of the parser leaves in the namespace: the
    argument string, or the empty list that argparse stores when the
    explicit argument of an option is the string [--]. *)
Inductive value :=
| StrValue (s : string)
| EmptyList.

Coercion StrValue : string >-> value.

(** ** Python string methods used by the scripts *)

Module Str.

(** [str.lower] on the ASCII range: A-Z go to a-z, every other byte is
    kept.  The scripts only use it to test for an ASCII suffix. *)
Definition lower_char (c : ascii) : ascii :=
  let n := N_of_ascii c in
  if ((65 <=? n) && (n <=? 90))%N then ascii_of_N (n + 32) else c.

Fixpoint lower (s : string) : string :=
  match s with
  | EmptyString => EmptyString
  | String c s' => String (lower_char c) (lower s')
  end.

(** [s.endswith(suffix)]: the last [len(suffix)] characters of [s] are
    compared with [suffix]. *)
Definition endswith (s suffix : string) : bool :=
  let n := String.length s in
  let k := String.length suffix in
  (k <=? n)%nat && String.eqb (String.substring (n - k) k s) suffix.

(** [s.startswith(p)]. *)
Definition startswith (s p : string) : bool := String.prefix p s.

(** [s.rstrip(c)] for a one-character [c]: the characters equal to [c]
    at the right end are dropped. *)
Fixpoint rstrip (c : ascii) (s : string) : string :=
  match s with
  | EmptyString => EmptyString
  | String a s' =>
      match rstrip c s' with
      | EmptyString => if Ascii.eqb a c then EmptyString else String a EmptyString
      | r => String a r
      end
  end.

(** [c * n]. *)
Fixpoint repeat (c : ascii) (n : nat) : string :=
  match n with
  | O => EmptyString
  | S n' => String c (repeat c n')
  end.

(** [sub in s]. *)
Definition contains (s sub : string) : Prop :=
  exists p q : string, s = p +:+ sub +:+ q.

End Str.



(** ** The command-line parser

    [parse_args] builds an [argparse.ArgumentParser] with one positional
    argument [text] and two options, [-o/--output] (default ["speech"]) and
    [--format] (default ["wav"], restricted by [choices]); argparse adds
    [-h/--help] itself.  The three scripts declare the same arguments.

    [Argparse] follows [ArgumentParser.parse_args] of CPython 3.11 for these
    declarations: every argument string is first classified as positional
    or optional ([_parse_optional], [_get_option_tuples]), then options and
    positionals are consumed from left to right, and at the end the required
    positional and the left-over strings are checked.  Argument strings
    are the UTF-8 bytes of the text; the digits of the negative-number
    pattern are the decimal digits of Unicode 14. *)

Module Argparse.

Inductive dest := Output | Format.

Inductive action :=
| Help
| Store (d : dest) (choices : option (list string)).

Definition format_choices : list string := ["wav"; "mp3"; "opus"; "flac"].

(** The parser's [_option_string_actions], in declaration order. *)
Definition option_string_actions : list (string * action) :=
  [ ("-h", Help); ("--help", Help);
    ("-o", Store Output None); ("--output", Store Output None);
    ("--format", Store Format (Some format_choices)) ].

Record Namespace := { text : string; output : value; format : value }.

Inductive error :=
| AmbiguousOption (arg : string)
| ExpectedOneArgument (opt : string)
| InvalidChoice (opt value : string)
| IgnoredExplicitArgument (opt explicit : string)
| RequiredArguments
| UnrecognizedArguments (extras : list string).

Inductive outcome :=
| Parsed (ns : Namespace)
| HelpExit
| UsageError (e : error).

Inductive token :=
| Positional
| Optional (opt : string) (act : action) (explicit : option string)
| Unknown
| Ambiguous.

Definition lookup_option (s : string) : option action :=
  snd <$> List.find (fun p => String.eqb (fst p) s) option_string_actions.

(** [s.split('=', 1)] when ['=' in s]. *)
Fixpoint split_eq (s : string) : option (string * string) :=
  match s with
  | EmptyString => None
  | String c s' =>
      if Ascii.eqb c "=" then Some (EmptyString, s')
      else match split_eq s' with
           | Some (a, b) => Some (String c a, b)
           | None => None
           end
  end.

Fixpoint has_space (s : string) : bool :=
  match s with
  | EmptyString => false
  | String c s' => Ascii.eqb c " " || has_space s'
  end.

(** The characters that [\d] matches: the code points of the decimal
    digits, as inclusive ranges. *)
Definition decimal_ranges : list (N * N) :=
  [ (48, 57);
    (1632, 1641);
    (1776, 1785);
    (1984, 1993);
    (2406, 2415);
    (2534, 2543);
    (2662, 2671);
    (2790, 2799);
    (2918, 2927);
    (3046, 3055);
    (3174, 3183);
    (3302, 3311);
    (3430, 3439);
    (3558, 3567);
    (3664, 3673);
    (3792, 3801);
    (3872, 3881);
    (4160, 4169);
    (4240, 4249);
    (6112, 6121);
    (6160, 6169);
    (6470, 6479);
    (6608, 6617);
    (6784, 6793);
    (6800, 6809);
    (6992, 7001);
    (7088, 7097);
    (7232, 7241);
    (7248, 7257);
    (42528, 42537);
    (43216, 43225);
    (43264, 43273);
    (43472, 43481);
    (43504, 43513);
    (43600, 43609);
    (44016, 44025);
    (65296, 65305);
    (66720, 66729);
    (68912, 68921);
    (69734, 69743);
    (69872, 69881);
    (69942, 69951);
    (70096, 70105);
    (70384, 70393);
    (70736, 70745);
    (70864, 70873);
    (71248, 71257);
    (71360, 71369);
    (71472, 71481);
    (71904, 71913);
    (72016, 72025);
    (72784, 72793);
    (73040, 73049);
    (73120, 73129);
    (92768, 92777);
    (92864, 92873);
    (93008, 93017);
    (120782, 120831);
    (123200, 123209);
    (123632, 123641);
    (125264, 125273);
    (130032, 130041) ]%N.

Definition is_decimal (cp : N) : bool :=
  existsb (fun r => (fst r <=? cp) && (cp <=? snd r))%N decimal_ranges.

(** The payload of a UTF-8 continuation byte. *)
Definition continuation (c : ascii) : option N :=
  let n := N_of_ascii c in
  if ((128 <=? n) && (n <=? 191))%N then Some (n - 128)%N else None.

(** The first character of a string and the rest of the string; [None]
    when the string is empty or does not start with a well-formed UTF-8
    sequence (such a byte is no digit for the parser). *)
Definition decode_char (s : string) : option (N * string) :=
  match s with
  | EmptyString => None
  | String b0 s1 =>
      let n0 := N_of_ascii b0 in
      if (n0 <? 128)%N then Some (n0, s1)
      else if (n0 <? 194)%N then None
      else if (n0 <? 224)%N then
        match s1 with
        | String b1 s2 =>
            c1 ← continuation b1;
            Some (((n0 - 192) * 64 + c1)%N, s2)
        | _ => None
        end
      else if (n0 <? 240)%N then
        match s1 with
        | String b1 (String b2 s3) =>
            c1 ← continuation b1;
            c2 ← continuation b2;
            let cp := ((n0 - 224) * 4096 + c1 * 64 + c2)%N in
            if ((2048 <=? cp) && negb ((55296 <=? cp) && (cp <=? 57343)))%N
            then Some (cp, s3) else None
        | _ => None
        end
      else if (n0 <? 245)%N then
        match s1 with
        | String b1 (String b2 (String b3 s4)) =>
            c1 ← continuation b1;
            c2 ← continuation b2;
            c3 ← continuation b3;
            let cp := ((n0 - 240) * 262144 + c1 * 4096 + c2 * 64 + c3)%N in
            if ((65536 <=? cp) && (cp <=? 1114111))%N
            then Some (cp, s4) else None
        | _ => None
        end
      else None
  end.

(** The string after its first character, when that one is a digit. *)
Definition take_digit (s : string) : option string :=
  '(cp, rest) ← decode_char s;
  if is_decimal cp then Some rest else None.

Fixpoint skip_digits_go (fuel : nat) (s : string) : string :=
  match fuel with
  | O => s
  | S fuel' =>
      match take_digit s with
      | Some rest => skip_digits_go fuel' rest
      | None => s
      end
  end.

(** The string after its leading digits. *)
Definition skip_digits (s : string) : string :=
  skip_digits_go (String.length s) s.

(** End of the pattern: [$] matches at the end of the string and before a
    final newline. *)
Definition at_end (s : string) : bool :=
  String.eqb s "" || String.eqb s (String "010" "").

Definition starts_with_digit (s : string) : bool :=
  match take_digit s with Some _ => true | None => false end.

(** [_negative_number_matcher]: ['^-\d+$|^-\d*\.\d+$']. *)
Definition negative_number (s : string) : bool :=
  match s with
  | String "-" body =>
      (starts_with_digit body && at_end (skip_digits body))
      || match skip_digits body with
         | String "." frac => starts_with_digit frac && at_end (skip_digits frac)
         | _ => false
         end
  | _ => false
  end.

(** [_get_option_tuples]: abbreviations of long options, and a short
    option written together with its argument. *)
Definition long_option_tuple (option_prefix : string) (explicit_arg : option string)
    (entry : string * action) : option token :=
  if Str.startswith (fst entry) option_prefix
  then Some (Optional (fst entry) (snd entry) explicit_arg)
  else None.

Definition short_option_tuple (a short_option_prefix short_explicit_arg : string)
    (entry : string * action) : option token :=
  if String.eqb (fst entry) short_option_prefix
  then Some (Optional (fst entry) (snd entry) (Some short_explicit_arg))
  else if Str.startswith (fst entry) a
  then Some (Optional (fst entry) (snd entry) None)
  else None.

Definition get_option_tuples (a : string) : list token :=
  match a with
  | String c0 (String c1 rest) =>
      if negb (Ascii.eqb c0 "-") then []
      else if Ascii.eqb c1 "-" then
        let '(option_prefix, explicit_arg) :=
          match split_eq a with
          | Some (p, e) => (p, Some e)
          | None => (a, None)
          end in
        omap (long_option_tuple option_prefix explicit_arg) option_string_actions
      else
        omap (short_option_tuple a (String c0 (String c1 "")) rest)
             option_string_actions
  | _ => []
  end.

(** [_parse_optional]. *)
Definition classify (a : string) : token :=
  match a with
  | EmptyString => Positional
  | String c _ =>
      if negb (Ascii.eqb c "-") then Positional
      else match lookup_option a with
      | Some act => Optional a act None
      | None =>
          if (String.length a =? 1)%nat then Positional
          else
            match ('(o, e) ← split_eq a; act ← lookup_option o;
                   Some (Optional o act (Some e))) with
            | Some t => t
            | None =>
                match get_option_tuples a with
                | _ :: _ :: _ => Ambiguous
                | [t] => t
                | [] =>
                    if negative_number a then Positional
                    else if has_space a then Positional
                    else Unknown
                end
            end
      end
  end.

(** Values collected so far.  [p_fresh] holds when the last argument
    string consumed was the one taken for [text]: a [--] right after it is
    matched together with it. *)
Record pstate := {
  p_text : option string;
  p_output : value;
  p_format : value;
  p_extras : list string;
  p_fresh : bool
}.

Definition initial : pstate :=
  {| p_text := None; p_output := "speech"; p_format := "wav"; p_extras := [];
     p_fresh := false |}.

Definition take_positional (st : pstate) (a : string) : pstate :=
  match p_text st with
  | None => {| p_text := Some a; p_output := p_output st;
               p_format := p_format st; p_extras := p_extras st;
               p_fresh := true |}
  | Some _ => {| p_text := p_text st; p_output := p_output st;
                 p_format := p_format st; p_extras := p_extras st ++ [a];
                 p_fresh := false |}
  end.

Definition add_extra (st : pstate) (a : string) : pstate :=
  {| p_text := p_text st; p_output := p_output st;
     p_format := p_format st; p_extras := p_extras st ++ [a];
     p_fresh := false |}.

Definition in_choices (choices : option (list string)) (v : string) : bool :=
  match choices with
  | None => true
  | Some l => existsb (String.eqb v) l
  end.

(** [_get_values] for an option with one argument string: the string
    [--] is stripped from the argument strings first, which leaves the empty
    list as the value, and nothing is checked then; any other string is
    checked against the choices. *)
Definition get_values (os : string) (choices : option (list string))
    (v : string) : error + value :=
  if String.eqb v "--" then inr EmptyList
  else if in_choices choices v then inr (StrValue v)
  else inl (InvalidChoice os v).

(** The store action. *)
Definition store (os : string) (d : dest) (choices : option (list string))
    (v : string) (st : pstate) : error + pstate :=
  match get_values os choices v with
  | inl err => inl err
  | inr x =>
      inr match d with
          | Output => {| p_text := p_text st; p_output := x;
                         p_format := p_format st; p_extras := p_extras st;
                         p_fresh := false |}
          | Format => {| p_text := p_text st; p_output := p_output st;
                         p_format := x; p_extras := p_extras st;
                         p_fresh := false |}
          end
  end.

(** Required arguments are checked first, left-over strings second. *)
Definition finish (st : pstate) : outcome :=
  match p_text st with
  | None => UsageError RequiredArguments
  | Some t =>
      match p_extras st with
      | [] => Parsed {| text := t; output := p_output st; format := p_format st |}
      | extras => UsageError (UnrecognizedArguments extras)
      end
  end.

(** The tail of a single-dash option string after [-h]: more single-dash
    options are parsed out of it.  [value_follows] tells whether the next
    argument string can serve as the argument of [-o]. *)
Fixpoint cluster (e : string) (value_follows : bool) : outcome :=
  match e with
  | EmptyString => UsageError (IgnoredExplicitArgument "-h" e)
  | String c e' =>
      if Ascii.eqb c "h" then
        match e' with
        | EmptyString => HelpExit
        | _ => cluster e' value_follows
        end
      else if Ascii.eqb c "o" then
        match e' with
        | EmptyString =>
            if value_follows then HelpExit
            else UsageError (ExpectedOneArgument "-o")
        | _ => HelpExit
        end
      else UsageError (IgnoredExplicitArgument "-h" e)
  end.

Definition is_value (v : string) : bool :=
  match classify v with Positional => true | _ => false end.

(** The argument of an option is the next argument string when that one
    is classified as positional; [--] is not accepted in its place. *)
Definition value_follows (rest : list string) : bool :=
  match rest with
  | [] => false
  | v :: _ => negb (String.eqb v "--") && is_value v
  end.

Definition positionals (st : pstate) (args : list string) : pstate :=
  fold_left take_positional args st.

(** The separator [--] and the argument strings after it, which are all
    positional.  The separator is matched together with [text]: before it
    when [text] is still to come, after it when [text] was the string just
    before; otherwise it is left over like any other string. *)
Definition after_separator (st : pstate) (rest : list string) : pstate :=
  match p_text st with
  | Some _ => if p_fresh st then positionals st rest
              else positionals (add_extra st "--") rest
  | None => positionals st rest
  end.

Fixpoint consume (args : list string) (st : pstate) : outcome :=
  match args with
  | [] => finish st
  | a :: rest =>
      if String.eqb a "--" then finish (after_separator st rest)
      else
        match classify a with
        | Positional => consume rest (take_positional st a)
        | Unknown => consume rest (add_extra st a)
        | Ambiguous => UsageError (AmbiguousOption a)
        | Optional os Help None => HelpExit
        | Optional os Help (Some e) =>
            if Str.startswith os "--"
            then UsageError (IgnoredExplicitArgument os e)
            else cluster e (value_follows rest)
        | Optional os (Store d choices) (Some e) =>
            match store os d choices e st with
            | inl err => UsageError err
            | inr st' => consume rest st'
            end
        | Optional os (Store d choices) None =>
            match rest with
            | [] => UsageError (ExpectedOneArgument os)
            | v :: rest' =>
                if value_follows rest then
                  match store os d choices v st with
                  | inl err => UsageError err
                  | inr st' => consume rest' st'
                  end
                else UsageError (ExpectedOneArgument os)
            end
        end
  end.

(** An ambiguous abbreviation is reported while the argument strings are
    classified, before any action runs. *)
Fixpoint first_ambiguous (args : list string) : option string :=
  match args with
  | [] => None
  | a :: rest =>
      if String.eqb a "--" then None
      else match classify a with
           | Ambiguous => Some a
           | _ => first_ambiguous rest
           end
  end.

Definition parse (argv : list string) : outcome :=
  match first_ambiguous argv with
  | Some a => UsageError (AmbiguousOption a)
  | None => consume argv initial
  end.

End Argparse.

(** ** Values decoded from JSON, and keyword arguments *)

#[warning="-register-all"] Inductive json :=
| JNull
| JBool (b : bool)
| JInt (n : Z)
| JFloat (f : spec_float)
| JStr (s : string)
| JList (l : list json)
| JDict (items : list (string * json)).

(** Python truth value: [None], [False], zero and empty containers are
    false. *)
Definition truthy (v : json) : bool :=
  match v with
  | JNull => false
  | JBool b => b
  | JInt n => negb (n =? 0)
  | JFloat (S754_zero _) => false
  | JFloat _ => true
  | JStr s => negb (String.eqb s "")
  | JList l => match l with [] => false | _ => true end
  | JDict items => match items with [] => false | _ => true end
  end.

Definition assoc {A : Type} (k : string) (items : list (string * A)) : option A :=
  snd <$> List.find (fun p => String.eqb (fst p) k) items.

(** [v.get(k, default)]; [None] stands for the [AttributeError] raised when
    [v] is not a dict. *)
Definition dict_get (v : json) (k : string) (default : json) : option json :=
  match v with
  | JDict items => Some (from_option id default (assoc k items))
  | _ => None
  end.

Definition nl : string := String "010" "".

(** ** The libraries the scripts call *)

(** [requests.post(url, json=..., headers=..., timeout=...)] and the
    response object it returns. *)
Module Requests.
Record Post := {
  url : string;
  json_body : list (string * json);
  headers : list (string * string);
  timeout : Z
}.

Record Response := {
  status_code : Z;
  content : bytes;
  text : string;
  (** [response.json()]; [None] when decoding raises. *)
  json : option json
}.

(** What the call yields: a response, a [requests.RequestException], or
    another exception: one that is a [RuntimeError], which the caller of
    [request_tts] catches, or one that is not ([UnicodeEncodeError] for a
    header that is not latin-1, for one).  The exceptions are given by
    their text. *)
Inductive result :=
| Responded (r : Response)
| RequestException (exc : string)
| RuntimeError (exc : string)
| Raised (exc : string).
End Requests.

(** [OpenAI(...)] followed by [client.audio.speech.create(...)]: the keyword
    arguments of both calls, and the attributes of the returned object that
    the scripts look at. *)
Module Sdk.
Record Call := {
  client_kwargs : list (string * json);
  create_kwargs : list (string * json)
}.

Record Response := {
  (** [getattr(response, "audio", None)] *)
  audio : option bytes;
  (** [response.content], when [hasattr(response, "content")] *)
  content : option (option bytes);
  (** [response.read()], when [hasattr(response, "read")] *)
  read : option (option bytes)
}.

Inductive result :=
| Returned (r : Response)
| Raised (exc : string).

Definition default_base_url : string := "https://api.openai.com/v1".

(** The base URL of the client that [OpenAI(...)] builds ([openai] 1.x,
    which [2-tts.py] imports through [litellm]): the [base_url] argument
    when it is given and not [None], else the environment variable
    [OPENAI_BASE_URL] when it is set, else the SDK's default. *)
Definition base_url (env : gmap string string) (c : Call) : json :=
  match assoc "base_url" (client_kwargs c) with
  | Some JNull | None =>
      JStr (from_option id default_base_url (env !! "OPENAI_BASE_URL"))
  | Some u => u
  end.
End Sdk.

Inductive event :=
| HttpPost (p : Requests.Post)
| SdkCreate (package : string) (c : Sdk.Call).

(** Outcome of [open(path, "wb")] followed by [f.write(data)].  A failure
    raises [OSError]; [remains] is the content found at the path afterwards
    when the failed attempt touched it. *)
Inductive write_result :=
| Written
| WriteFailed (exc : string) (remains : option bytes).

Record World := {
  environ : gmap string string;
  (** the files, each under its canonical path *)
  files : gmap string bytes;
  (** the canonical path of the file that a path names: two paths name the
      same file exactly when their canonical paths are equal *)
  realpath : string -> string;
  (** what the exchange with the endpoint yields when the client waits for
      it to complete *)
  endpoint : Requests.Post -> Requests.result;
  (** the longest the endpoint leaves the client without an answer, in
      seconds (until the connection is made, or until the next bytes of the
      response arrive); [None] when it never answers *)
  latency : Requests.Post -> option Z;
  (** [str(exc)] of the [requests.Timeout] raised when the wait exceeds the
      timeout of the request *)
  timeout_exc : Requests.Post -> string;
  speech_create : string -> Sdk.Call -> Sdk.result;
  open_wb : string -> bytes -> write_result;
  (** [print(s)]: the exception raised when standard output cannot take
      the text ([UnicodeEncodeError] under an encoding without U+2714) *)
  print_error : string -> option string;
  (** [str(v)] for a decoded JSON value that is not a [str] *)
  py_str : json -> string
}.

(** [requests.post(..., timeout=t)]: the client waits at most [t] seconds
    for the endpoint; when the endpoint takes longer the call raises
    [requests.Timeout], a [RequestException]. *)
Definition requests_post (w : World) (p : Requests.Post) : Requests.result :=
  match latency w p with
  | Some d =>
      if d <=? Requests.timeout p then endpoint w p
      else Requests.RequestException (timeout_exc w p)
  | None => Requests.RequestException (timeout_exc w p)
  end.

(** The seconds the client spends waiting for the endpoint. *)
Definition waited (w : World) (p : Requests.Post) : Z :=
  match latency w p with
  | Some d => Z.min d (Requests.timeout p)
  | None => Requests.timeout p
  end.

(** ** Process state and exceptions *)

Inductive out_item :=
| Text (s : string)
| HelpMessage
| Usage (e : Argparse.error).

(** [stdout] and [stderr] hold what the script and its parser write; the
    traceback that the interpreter prints for an uncaught exception is not
    recorded.  [calls] holds the calls made to [requests.post] and to the
    SDK client. *)
Record Proc := {
  stdout : list out_item;
  stderr : list out_item;
  fs : gmap string bytes;
  calls : list event
}.

Inductive exn :=
| SystemExit (code : Z)
| RuntimeError (msg : string)
| RequestException (msg : string)
| OSError (msg : string)
| SdkError (msg : string)
| AttributeError (msg : string)
(** any other exception, by its text *)
| PyError (msg : string).

Definition Py (A : Type) : Type := Proc -> (exn + A) * Proc.

#[global] Instance py_ret : MRet Py := fun A x st => (inr x, st).

#[global] Instance py_bind : MBind Py := fun A B f m st =>
  match m st with
  | (inr x, st') => f x st'
  | (inl e, st') => (inl e, st')
  end.

Definition raise {A : Type} (e : exn) : Py A := fun st => (inl e, st).

(** [try: m  except ...: handler]; the handler returns [None] for the
    exceptions the [except] clause does not name. *)
Definition try_except {A : Type} (m : Py A) (handler : exn -> option (Py A)) : Py A :=
  fun st =>
    match m st with
    | (inr x, st') => (inr x, st')
    | (inl e, st') =>
        match handler e with
        | Some k => k st'
        | None => (inl e, st')
        end
    end.

Definition stderr_write (s : string) : Py unit := fun st =>
  (inr tt, {| stdout := stdout st; stderr := stderr st ++ [Text s];
              fs := fs st; calls := calls st |}).

(** [print(s)]: the text is encoded for standard output before any of it
    is written. *)
Definition print (w : World) (s : string) : Py unit := fun st =>
  match print_error w s with
  | Some exc => (inl (PyError exc), st)
  | None =>
      (inr tt, {| stdout := stdout st ++ [Text (s +:+ nl)]; stderr := stderr st;
                  fs := fs st; calls := calls st |})
  end.

Definition sys_exit {A : Type} (code : Z) : Py A := raise (SystemExit code).

Definition record_call (e : event) (st : Proc) : Proc :=
  {| stdout := stdout st; stderr := stderr st; fs := fs st;
     calls := calls st ++ [e] |}.

Definition post (w : World) (p : Requests.Post) : Py Requests.Response := fun st =>
  match requests_post w p with
  | Requests.Responded r => (inr r, record_call (HttpPost p) st)
  | Requests.RequestException exc =>
      (inl (RequestException exc), record_call (HttpPost p) st)
  | Requests.RuntimeError exc =>
      (inl (RuntimeError exc), record_call (HttpPost p) st)
  | Requests.Raised exc => (inl (PyError exc), record_call (HttpPost p) st)
  end.

Definition create_speech (w : World) (package : string) (c : Sdk.Call)
  : Py Sdk.Response := fun st =>
  match speech_create w package c with
  | Sdk.Returned r => (inr r, record_call (SdkCreate package c) st)
  | Sdk.Raised exc => (inl (SdkError exc), record_call (SdkCreate package c) st)
  end.

Definition write_wb (w : World) (path : string) (data : bytes) : Py unit :=
  fun st =>
    match open_wb w path data with
    | Written =>
        (inr tt, {| stdout := stdout st; stderr := stderr st;
                    fs := <[realpath w path := data]> (fs st);
                    calls := calls st |})
    | WriteFailed exc remains =>
        (inl (OSError exc),
         {| stdout := stdout st; stderr := stderr st;
            fs := match remains with
                  | Some d => <[realpath w path := d]> (fs st)
                  | None => fs st
                  end;
            calls := calls st |})
    end.

(** How the process ends: [main] returns, [sys.exit] is called, or an
    exception reaches the top level (the interpreter then prints a traceback
    and the exit code is 1). *)
Inductive termination :=
| Finished
| Exited (code : Z)
| Uncaught (e : exn).

Definition exit_code (t : termination) : Z :=
  match t with
  | Finished => 0
  | Exited code => code
  | Uncaught _ => 1
  end.

Record Result := { final : Proc; ending : termination }.

Definition start (w : World) : Proc :=
  {| stdout := []; stderr := []; fs := files w; calls := [] |}.

Definition run (w : World) (m : Py unit) : Result :=
  match m (start w) with
  | (inr _, st) => {| final := st; ending := Finished |}
  | (inl (SystemExit code), st) => {| final := st; ending := Exited code |}
  | (inl e, st) => {| final := st; ending := Uncaught e |}
  end.

(** ** Code shared by the three scripts *)

Module Cli.

(** [parse_args]: [parser.parse_args()] prints the help message and exits
    with code 0, or prints a usage error and exits with code 2, or returns
    the namespace. *)
Definition parse_args (argv : list string) : Py Argparse.Namespace :=
  match Argparse.parse argv with
  | Argparse.Parsed ns => mret ns
  | Argparse.HelpExit =>
      fun st => (inl (SystemExit 0),
                 {| stdout := stdout st ++ [HelpMessage]; stderr := stderr st;
                    fs := fs st; calls := calls st |})
  | Argparse.UsageError e =>
      fun st => (inl (SystemExit 2),
                 {| stdout := stdout st; stderr := stderr st ++ [Usage e];
                    fs := fs st; calls := calls st |})
  end.

(** [os.getenv(name)] and [os.getenv(name, default)]. *)
Definition getenv (w : World) (name : string) : option string :=
  environ w !! name.

Definition getenv_default (w : World) (name default : string) : string :=
  from_option id default (environ w !! name).

(** [not api_key] for the result of [os.getenv]. *)
Definition not_set (v : option string) : bool :=
  match v with
  | None => true
  | Some s => String.eqb s ""
  end.

(** The extension step of [main]:
    [if not output_file.lower().endswith(f".{args.format}"):
         output_file = f"{output_file}.{args.format}"]. *)
Definition output_file (output format : string) : string :=
  if negb (Str.endswith (Str.lower output) ("." +:+ format))
  then output +:+ "." +:+ format
  else output.

(** [f"{args.format}"]: the string itself, or [str([])]. *)
Definition format_text (v : value) : string :=
  match v with
  | StrValue s => s
  | EmptyList => "[]"
  end.

(** The extension step applied to the namespace: [args.output.lower()]
    raises [AttributeError] when [args.output] is a list. *)
Definition output_path (args : Argparse.Namespace) : Py string :=
  match Argparse.output args with
  | StrValue o => mret (output_file o (format_text (Argparse.format args)))
  | EmptyList => raise (AttributeError "'list' object has no attribute 'lower'")
  end.

(** A parsed value as the JSON value it is sent as. *)
Definition value_json (v : value) : json :=
  match v with
  | StrValue s => JStr s
  | EmptyList => JList []
  end.

Definition key_error : string :=
  "Error: OPENAI_API_KEY environment variable is not set." +:+ nl.

(** The keyword arguments of [client.audio.speech.create] in [1-tts.py]
    and [2-tts.py]. *)
Definition create_kwargs (args : Argparse.Namespace) : list (string * json) :=
  [ ("model", JStr "gpt-4o-mini-tts");
    ("voice", JStr "alloy");
    ("input", JStr (Argparse.text args));
    ("instructions", JStr "Speak in a cheerful and positive tone.");
    ("response_format", value_json (Argparse.format args)) ].

(** "Retrieve binary audio": [getattr(response, "audio", None)], then the
    fall-backs [response.content] and [response.read()]. *)
Definition audio_of (response : Sdk.Response) : option bytes :=
  match Sdk.audio response with
  | Some a => Some a
  | None =>
      match Sdk.content response with
      | Some c => c
      | None =>
          match Sdk.read response with
          | Some r => r
          | None => None
          end
      end
  end.

(** The part of [main] after the SDK call in [1-tts.py] and [2-tts.py];
    an [OSError] from the write is not caught there. *)
Definition save (w : World) (args : Argparse.Namespace)
    (response : Sdk.Response) : Py unit :=
  audio_data ← match audio_of response with
               | Some d => mret d
               | None =>
                   stderr_write
                     ("Error: Could not extract audio data from response." +:+ nl);;
                   sys_exit 1
               end;
  output_file ← output_path args;
  write_wb w output_file audio_data;;
  print w ("✔ Audio saved to " +:+ output_file).

End Cli.

(** ** [1-tts.py]: the vendor SDK *)

Module Tts1.

Definition main (w : World) (argv : list string) : Py unit :=
  args ← Cli.parse_args argv;
  (if Cli.not_set (Cli.getenv w "OPENAI_API_KEY")
   then stderr_write Cli.key_error;; sys_exit 1
   else mret tt);;
  response ← create_speech w "openai"
    {| Sdk.client_kwargs := [];
       Sdk.create_kwargs := Cli.create_kwargs args |};
  Cli.save w args response.

End Tts1.

(** ** [2-tts.py]: the SDK-compatible client, with a fixed base URL *)

Module Tts2.

Definition OPENAI_BASE_URL : string := "https://api.openai.com/v1".

Definition main (w : World) (argv : list string) : Py unit :=
  args ← Cli.parse_args argv;
  let api_key := Cli.getenv w "OPENAI_API_KEY" in
  (if Cli.not_set api_key
   then stderr_write Cli.key_error;; sys_exit 1
   else mret tt);;
  let api_key := from_option id "" api_key in
  response ← create_speech w "litellm"
    {| Sdk.client_kwargs := [ ("api_key", JStr api_key);
                              ("base_url", JStr OPENAI_BASE_URL) ];
       Sdk.create_kwargs := Cli.create_kwargs args |};
  Cli.save w args response.

End Tts2.

(** ** [3-tts.py]: the POST request issued directly *)

Module Tts3.

Definition DEFAULT_OPENAI_BASE_URL : string := "https://api.openai.com/v1".
Definition default_model : string := "gpt-4o-mini-tts".
Definition default_voice : string := "alloy".
Definition default_instructions : option string :=
  Some "Speak in a cheerful and positive tone.".

Definition request_url (base_url : string) : string :=
  Str.rstrip "/" base_url +:+ "/audio/speech".

(** [f"{x}"] for a decoded JSON value. *)
Definition format_value (w : World) (v : json) : string :=
  match v with
  | JStr s => s
  | _ => py_str w v
  end.

(** [response.json().get("error", {}).get("message", "")] inside
    [try ... except Exception: pass], starting from [message = ""]. *)
Definition error_message (response : Requests.Response) : json :=
  from_option id (JStr "")
    (j ← Requests.json response;
     e ← dict_get j "error" (JDict []);
     dict_get e "message" (JStr "")).

Definition request_tts (w : World) (api_key text : string)
    (audio_format : value) (base_url model voice : string)
    (instructions : option string) : Py bytes :=
  let url := request_url base_url in
  let headers := [ ("Authorization", "Bearer " +:+ api_key);
                   ("Content-Type", "application/json") ] in
  let payload := [ ("model", JStr model);
                   ("voice", JStr voice);
                   ("input", JStr text);
                   ("instructions", from_option JStr JNull instructions);
                   ("response_format", Cli.value_json audio_format) ] in
  response ← try_except
    (post w {| Requests.url := url; Requests.json_body := payload;
               Requests.headers := headers; Requests.timeout := 60 |})
    (fun exc => match exc with
                | RequestException exc =>
                    Some (raise (RuntimeError
                      ("Network error while contacting " +:+ url +:+ ": " +:+ exc)))
                | _ => None
                end);
  if negb (Requests.status_code response =? 200) then
    let message := error_message response in
    raise (RuntimeError
      ("API error " +:+ pretty (Requests.status_code response) +:+ ": " +:+
       (if truthy message then format_value w message
        else Requests.text response)))
  else mret (Requests.content response).

Definition main (w : World) (argv : list string) : Py unit :=
  args ← Cli.parse_args argv;
  let api_key := Cli.getenv w "OPENAI_API_KEY" in
  (if Cli.not_set api_key
   then stderr_write Cli.key_error;; sys_exit 1
   else mret tt);;
  let api_key := from_option id "" api_key in
  let base_url := Cli.getenv_default w "OPENAI_BASE_URL" DEFAULT_OPENAI_BASE_URL in
  audio_data ← try_except
    (request_tts w api_key (Argparse.text args) (Argparse.format args) base_url
       default_model default_voice default_instructions)
    (fun exc => match exc with
                | RuntimeError err => Some (stderr_write (err +:+ nl);; sys_exit 1)
                | _ => None
                end);
  output_file ← Cli.output_path args;
  try_except (write_wb w output_file audio_data)
    (fun exc => match exc with
                | OSError exc =>
                    Some (stderr_write
                            ("Error writing " +:+ output_file +:+ ": " +:+ exc +:+ nl);;
                          sys_exit 1)
                | _ => None
                end);;
  print w ("✔ Audio saved to " +:+ output_file).

End Tts3.

(** ** Names for the runs

    [sent key base_url args] is the request that [3-tts.py] hands to
    [requests.post]; [halted] builds the result of a run from its parts. *)

Definition sent (key base_url : string) (args : Argparse.Namespace) : Requests.Post :=
  {| Requests.url := Tts3.request_url base_url;
     Requests.json_body :=
       [ ("model", JStr "gpt-4o-mini-tts");
         ("voice", JStr "alloy");
         ("input", JStr (Argparse.text args));
         ("instructions", JStr "Speak in a cheerful and positive tone.");
         ("response_format", Cli.value_json (Argparse.format args)) ];
     Requests.headers :=
       [ ("Authorization", "Bearer " +:+ key);
         ("Content-Type", "application/json") ];
     Requests.timeout := 60 |}.

Definition base_url_of (w : World) : string :=
  Cli.getenv_default w "OPENAI_BASE_URL" Tts3.DEFAULT_OPENAI_BASE_URL.

Definition key_present (w : World) (key : string) : Prop :=
  environ w !! "OPENAI_API_KEY" = Some key /\ key <> "".

Definition key_missing (w : World) : Prop :=
  environ w !! "OPENAI_API_KEY" = None \/ environ w !! "OPENAI_API_KEY" = Some "".

(** The text of the diagnostic of a failed request. *)
Definition api_error (w : World) (r : Requests.Response) : string :=
  "API error " +:+ pretty (Requests.status_code r) +:+ ": " +:+
  (if truthy (Tts3.error_message r) then Tts3.format_value w (Tts3.error_message r)
   else Requests.text r).

Definition network_error (url exc : string) : string :=
  "Network error while contacting " +:+ url +:+ ": " +:+ exc.

Definition halted (out err : list out_item) (files : gmap string bytes)
    (calls : list event) (t : termination) : Result :=
  {| final := {| stdout := out; stderr := err; fs := files; calls := calls |};
     ending := t |}.

Ltac unfold_py :=
  unfold run, start, Cli.parse_args, Cli.save, Cli.output_path, Cli.getenv,
    mbind, mret, py_bind, py_ret, try_except, sys_exit, raise, stderr_write,
    print, post, create_speech, write_wb, record_call, halted in *;
  simpl.

Definition openai_call (args : Argparse.Namespace) : Sdk.Call :=
  {| Sdk.client_kwargs := [];
     Sdk.create_kwargs := Cli.create_kwargs args |}.

Definition litellm_call (key : string) (args : Argparse.Namespace) : Sdk.Call :=
  {| Sdk.client_kwargs := [ ("api_key", JStr key);
                            ("base_url", JStr Tts2.OPENAI_BASE_URL) ];
     Sdk.create_kwargs := Cli.create_kwargs args |}.

(** The end of a run after the file has been written at [path]. *)
Definition reported (w : World) (path : string) (files : gmap string bytes)
    (calls : list event) : Result :=
  match print_error w ("✔ Audio saved to " +:+ path) with
  | None =>
      halted [Text (("✔ Audio saved to " +:+ path) +:+ nl)] [] files calls Finished
  | Some exc => halted [] [] files calls (Uncaught (PyError exc))
  end.

(** What the SDK scripts do with the object returned by the client. *)
Definition saved (w : World) (args : Argparse.Namespace) (e : event)
    (r : Sdk.Response) : Result :=
  match Cli.audio_of r with
  | None =>
      halted []
        [Text ("Error: Could not extract audio data from response." +:+ nl)]
        (files w) [e] (Exited 1)
  | Some d =>
      match Argparse.output args with
      | EmptyList =>
          halted [] [] (files w) [e]
            (Uncaught (AttributeError "'list' object has no attribute 'lower'"))
      | StrValue o =>
          let path := Cli.output_file o (Cli.format_text (Argparse.format args)) in
          match open_wb w path d with
          | Written => reported w path (<[realpath w path := d]> (files w)) [e]
          | WriteFailed exc remains =>
              halted [] []
                (match remains with
                 | Some d' => <[realpath w path := d']> (files w)
                 | None => files w
                 end)
                [e] (Uncaught (OSError exc))
          end
      end
  end.

(** The three scripts. *)
Definition scripts : list (World -> list string -> Py unit) :=
  [Tts1.main; Tts2.main; Tts3.main].

(** ** Example worlds *)

Module Examples.

(** [b"RIFF..."] *)
Definition riff : bytes :=
  [Byte.x52; Byte.x49; Byte.x46; Byte.x46; Byte.x2e; Byte.x2e; Byte.x2e].

(** A mocked endpoint: every request gets the same reply, every file can
    be written, the SDK client fails to connect. *)
Definition mock (env : gmap string string) (reply : Requests.result) : World :=
  {| environ := env;
     files := ∅;
     realpath := id;
     endpoint := fun _ => reply;
     latency := fun _ => Some 1;
     timeout_exc := fun _ => "Read timed out. (read timeout=60)";
     speech_create := fun _ _ => Sdk.Raised "APIConnectionError";
     open_wb := fun _ _ => Written;
     print_error := fun _ => None;
     py_str := fun _ => "" |}.

(** The same with an SDK client that returns audio bytes. *)
Definition sdk_mock (env : gmap string string) (audio : bytes) : World :=
  {| environ := env;
     files := ∅;
     realpath := id;
     endpoint := fun _ => Requests.RequestException "ConnectionError";
     latency := fun _ => Some 1;
     timeout_exc := fun _ => "Read timed out. (read timeout=60)";
     speech_create := fun _ _ =>
       Sdk.Returned {| Sdk.audio := None; Sdk.content := Some (Some audio);
                       Sdk.read := Some (Some audio) |};
     open_wb := fun _ _ => Written;
     print_error := fun _ => None;
     py_str := fun _ => "" |}.

Definition with_key : gmap string string := {[ "OPENAI_API_KEY" := "sk-test" ]}.

Definition with_key_and_base (base_url : string) : gmap string string :=
  <[ "OPENAI_BASE_URL" := base_url ]> with_key.

Definition ok_response (body : bytes) : Requests.Response :=
  {| Requests.status_code := 200; Requests.content := body;
     Requests.text := ""; Requests.json := None |}.

Definition ok (body : bytes) : Requests.result :=
  Requests.Responded (ok_response body).

Definition dq : string := String "034" "".

(** The body [{"error":{"message":"bad input"}}] and its decoding. *)
Definition bad_input_text : string :=
  "{" +:+ dq +:+ "error" +:+ dq +:+ ":{" +:+ dq +:+ "message" +:+ dq +:+ ":"
      +:+ dq +:+ "bad input" +:+ dq +:+ "}}".

Definition bad_input_json : json :=
  JDict [("error", JDict [("message", JStr "bad input")])].

Definition bad_input_response : Requests.Response :=
  {| Requests.status_code := 400; Requests.content := [];
     Requests.text := bad_input_text;
     Requests.json := Some bad_input_json |}.

Definition bad_input : Requests.result :=
  Requests.Responded bad_input_response.

End Examples.

(** More example worlds: a file system that refuses every write, and SDK
    clients that return a given object. *)
Module MoreExamples.

Definition read_only (env : gmap string string) (reply : Requests.result)
    (answer : Sdk.result) : World :=
  {| environ := env;
     files := ∅;
     realpath := id;
     endpoint := fun _ => reply;
     latency := fun _ => Some 1;
     timeout_exc := fun _ => "Read timed out. (read timeout=60)";
     speech_create := fun _ _ => answer;
     open_wb := fun _ _ => WriteFailed "[Errno 30] Read-only file system" None;
     print_error := fun _ => None;
     py_str := fun _ => "" |}.

Definition sdk_world (env : gmap string string) (answer : Sdk.result) : World :=
  {| environ := env;
     files := ∅;
     realpath := id;
     endpoint := fun _ => Requests.RequestException "ConnectionError";
     latency := fun _ => Some 1;
     timeout_exc := fun _ => "Read timed out. (read timeout=60)";
     speech_create := fun _ _ => answer;
     open_wb := fun _ _ => Written;
     print_error := fun _ => None;
     py_str := fun _ => "" |}.

(** An endpoint that leaves the client waiting: for the given number of
    seconds, or for ever. *)
Definition slow (env : gmap string string) (seconds : option Z)
    (reply : Requests.result) : World :=
  {| environ := env;
     files := ∅;
     realpath := id;
     endpoint := fun _ => reply;
     latency := fun _ => seconds;
     timeout_exc := fun _ => "Read timed out. (read timeout=60)";
     speech_create := fun _ _ => Sdk.Raised "APITimeoutError";
     open_wb := fun _ _ => Written;
     print_error := fun _ => None;
     py_str := fun _ => "" |}.

(** A standard output that cannot encode the check mark of the
    confirmation line. *)
Definition ascii_stdout (env : gmap string string) (reply : Requests.result)
    (answer : Sdk.result) : World :=
  {| environ := env;
     files := ∅;
     realpath := id;
     endpoint := fun _ => reply;
     latency := fun _ => Some 1;
     timeout_exc := fun _ => "Read timed out. (read timeout=60)";
     speech_create := fun _ _ => answer;
     open_wb := fun _ _ => Written;
     print_error := fun _ => Some "'ascii' codec can't encode character";
     py_str := fun _ => "" |}.

Definition with_content (audio : bytes) : Sdk.Response :=
  {| Sdk.audio := None; Sdk.content := Some (Some audio); Sdk.read := None |}.

Definition without_audio : Sdk.Response :=
  {| Sdk.audio := None; Sdk.content := Some None; Sdk.read := None |}.

Definition hello_args : Argparse.Namespace :=
  {| Argparse.text := "Hello world"; Argparse.output := "speech";
     Argparse.format := "wav" |}.

End MoreExamples.

(** ** Notions of the specification *)

(** The nested [error.message] field of a JSON body, when there is one. *)
Definition nested_message (r : Requests.Response) : option json :=
  match Requests.json r with
  | Some (JDict top) =>
      match assoc "error" top with
      | Some (JDict err) => assoc "message" err
      | _ => None
      end
  | _ => None
  end.

(** The timeout an outbound call is given, if any. *)
Definition passed_timeout (e : event) : option json :=
  match e with
  | HttpPost p => Some (JInt (Requests.timeout p))
  | SdkCreate _ c =>
      match assoc "timeout" (Sdk.create_kwargs c) with
      | Some v => Some v
      | None => assoc "timeout" (Sdk.client_kwargs c)
      end
  end.

(** The base URL an outbound SDK call is given, if any. *)
Definition passed_base_url (c : Sdk.Call) : option json :=
  assoc "base_url" (Sdk.client_kwargs c).


(** A format left in the namespace by a command line: one of the declared
    choices, or the empty list, which takes an argument string that ends
    with [=--]. *)
Definition format_from (argv : list string) (v : value) : Prop :=
  match v with
  | StrValue f => In f Argparse.format_choices
  | EmptyList => exists p, In (p +:+ "=--") argv
  end.

(** ** Facts about the string methods *)

Section StrFacts.
Import Str.

Lemma app_cons (a : ascii) (s t : string) :
  String a s +:+ t = String a (s +:+ t).
Proof. reflexivity. Qed.

Lemma app_nil_l (s : string) : "" +:+ s = s.
Proof. reflexivity. Qed.

Lemma app_nil_r (s : string) : s +:+ "" = s.
Proof.
  induction s as [|a s IH]; [reflexivity | now rewrite app_cons, IH].
Qed.

Lemma app_assoc (s t u : string) : (s +:+ t) +:+ u = s +:+ t +:+ u.
Proof.
  induction s as [|a s IH]; [reflexivity | now rewrite !app_cons, IH].
Qed.

Lemma app_length (s t : string) :
  String.length (s +:+ t) = (String.length s + String.length t)%nat.
Proof.
  induction s as [|a s IH]; [reflexivity|].
  rewrite app_cons; simpl; now rewrite IH.
Qed.

Lemma substring_all (s : string) : String.substring 0 (String.length s) s = s.
Proof. induction s as [|a s IH]; simpl; [reflexivity | now rewrite IH]. Qed.

Lemma substring_skip (p t : string) (k : nat) :
  String.substring (String.length p) k (p +:+ t) = String.substring 0 k t.
Proof.
  induction p as [|a p IH]; [reflexivity | rewrite app_cons; exact IH].
Qed.

Lemma substring_split (s : string) (n : nat) :
  (n <= String.length s)%nat ->
  s = String.substring 0 n s +:+ String.substring n (String.length s - n) s.
Proof.
  revert n; induction s as [|a s IH]; intros [|n] Hn; simpl in *.
  - reflexivity.
  - lia.
  - now rewrite app_nil_l, substring_all.
  - rewrite app_cons. f_equal. apply IH. lia.
Qed.

(** [endswith] decides "is a suffix of". *)
Lemma endswith_spec (s suffix : string) :
  endswith s suffix = true <-> exists p : string, s = p +:+ suffix.
Proof.
  unfold endswith. rewrite andb_true_iff, Nat.leb_le, String.eqb_eq. split.
  - intros [Hle Hsub]. exists (String.substring 0 (String.length s - String.length suffix) s).
    pose proof (substring_split s (String.length s - String.length suffix)) as H.
    replace (String.length s - (String.length s - String.length suffix))%nat
      with (String.length suffix) in H by lia.
    rewrite Hsub in H. apply H. lia.
  - intros [p ->]. rewrite app_length. split; [lia|].
    replace (String.length p + String.length suffix - String.length suffix)%nat
      with (String.length p) by lia.
    rewrite substring_skip. apply substring_all.
Qed.

Lemma endswith_false (s suffix : string) :
  endswith s suffix = false <-> ~ exists p : string, s = p +:+ suffix.
Proof.
  rewrite <- endswith_spec. destruct (endswith s suffix); split; congruence.
Qed.

Lemma lower_app (s t : string) : lower (s +:+ t) = lower s +:+ lower t.
Proof.
  induction s as [|a s IH]; [reflexivity|].
  rewrite app_cons; simpl; now rewrite IH, app_cons.
Qed.

Lemma lower_length (s : string) : String.length (lower s) = String.length s.
Proof. induction s as [|a s IH]; simpl; [reflexivity | now rewrite IH]. Qed.

Lemma lower_char_idem (c : ascii) : lower_char (lower_char c) = lower_char c.
Proof.
  destruct c as [[] [] [] [] [] [] [] []]; reflexivity.
Qed.

Lemma lower_idem (s : string) : lower (lower s) = lower s.
Proof.
  induction s as [|a s IH]; simpl; [reflexivity|].
  now rewrite lower_char_idem, IH.
Qed.

(** [rstrip] leaves a string that does not end with the stripped
    character, and only drops copies of that character. *)
Lemma rstrip_repeat (c : ascii) (s : string) :
  exists n : nat, s = rstrip c s +:+ repeat c n.
Proof.
  induction s as [|a s [n IH]]; simpl.
  - now exists 0%nat.
  - destruct (rstrip c s) as [|b r] eqn:E.
    + destruct (Ascii.eqb_spec a c) as [->|Hne].
      * exists (S n). rewrite app_nil_l in *. simpl. now rewrite <- IH.
      * exists n. rewrite app_cons, <- IH. reflexivity.
    + exists n. rewrite app_cons, <- IH. reflexivity.
Qed.

Lemma rstrip_no_trailing (c : ascii) (s : string) :
  endswith (rstrip c s) (String c "") = false.
Proof.
  apply endswith_false. intros [p Hp].
  revert p Hp; induction s as [|a s IH]; intros p Hp; simpl in Hp.
  - destruct p; discriminate.
  - destruct (rstrip c s) as [|b r] eqn:E.
    + destruct (Ascii.eqb_spec a c) as [->|Hne].
      * destruct p; discriminate.
      * destruct p as [|x [|y p]]; try discriminate.
        injection Hp as ->. congruence.
    + destruct p as [|x p]; [discriminate|].
      rewrite app_cons in Hp. injection Hp as -> Hp. now apply (IH p).
Qed.

Lemma rstrip_app_char (c : ascii) (s : string) :
  rstrip c (s +:+ String c "") = rstrip c s.
Proof.
  induction s as [|a s IH].
  - rewrite app_nil_l. simpl. now rewrite Ascii.eqb_refl.
  - rewrite app_cons. simpl. now rewrite IH.
Qed.

Lemma rstrip_app_repeat (c : ascii) (s : string) (n : nat) :
  rstrip c (s +:+ repeat c n) = rstrip c s.
Proof.
  revert s; induction n as [|n IH]; intros s; simpl.
  - now rewrite app_nil_r.
  - change (String c (repeat c n)) with (String c "" +:+ repeat c n).
    rewrite <- app_assoc, IH. apply rstrip_app_char.
Qed.

End StrFacts.

(** ** Facts about the parser *)

Section ParserFacts.
Import Argparse.

Lemma find_table (s : string) (act : action) :
  lookup_option s = Some act -> In (s, act) option_string_actions.
Proof.
  unfold lookup_option. intros H.
  destruct (List.find _ option_string_actions) as [[os a]|] eqn:E; [|discriminate].
  apply find_some in E as [Hin Heq]. simpl in *.
  apply String.eqb_eq in Heq. injection H as <-. now subst.
Qed.

Lemma option_tuples_table (a : string) (t : token) :
  In t (get_option_tuples a) ->
  exists os act e, t = Optional os act e /\ In (os, act) option_string_actions.
Proof.
  intros Hin. apply list_elem_of_In in Hin.
  unfold get_option_tuples in Hin.
  destruct a as [|c0 [|c1 rest]]; try (now inversion Hin).
  destruct (negb (Ascii.eqb c0 "-")); [now inversion Hin|].
  destruct (Ascii.eqb c1 "-").
  - destruct (split_eq _) as [[p e]|];
      apply list_elem_of_omap in Hin as [[os act] [Hel Hf]];
      apply list_elem_of_In in Hel;
      unfold long_option_tuple in Hf; simpl in Hf;
      destruct (Str.startswith os _); try discriminate;
      injection Hf as <-; eauto.
  - apply list_elem_of_omap in Hin as [[os act] [Hel Hf]].
    apply list_elem_of_In in Hel.
    unfold short_option_tuple in Hf; simpl in Hf.
    destruct (String.eqb os _); [injection Hf as <-; eauto|].
    destruct (Str.startswith os _); try discriminate.
    injection Hf as <-; eauto.
Qed.

(** Every option that [classify] recognises is one of the declared ones. *)
Lemma classify_table (a os : string) (act : action) (e : option string) :
  classify a = Optional os act e -> In (os, act) option_string_actions.
Proof.
  unfold classify. destruct a as [|c a']; [discriminate|].
  destruct (negb (Ascii.eqb c "-")); [discriminate|].
  destruct (lookup_option (String c a')) as [act'|] eqn:El.
  { intros H; injection H as <- <- _. now apply find_table. }
  destruct (String.length (String c a') =? 1)%nat; [discriminate|].
  destruct (split_eq (String c a')) as [[o e']|] eqn:Es;
    cbn -[negative_number has_space get_option_tuples lookup_option].
  - destruct (lookup_option o) as [act'|] eqn:Eo;
      cbn -[negative_number has_space get_option_tuples lookup_option].
    { intros H; injection H as <- <- _. now apply find_table. }
    destruct (get_option_tuples (String c a')) as [|t [|t' l]] eqn:Eg.
    + destruct (negative_number _); [discriminate|].
      destruct (has_space _); discriminate.
    + intros ->.
      destruct (option_tuples_table (String c a') (Optional os act e))
        as (os' & act' & e'' & Heq & Hin); [rewrite Eg; now left|].
      now injection Heq as -> -> _.
    + discriminate.
  - destruct (get_option_tuples (String c a')) as [|t [|t' l]] eqn:Eg.
    + destruct (negative_number _); [discriminate|].
      destruct (has_space _); discriminate.
    + intros ->.
      destruct (option_tuples_table (String c a') (Optional os act e))
        as (os' & act' & e'' & Heq & Hin); [rewrite Eg; now left|].
      now injection Heq as -> -> _.
    + discriminate.
Qed.

Lemma split_eq_spec (s o e : string) :
  split_eq s = Some (o, e) -> s = o +:+ "=" +:+ e.
Proof.
  revert o; induction s as [|c s IH]; intros o; simpl; [discriminate|].
  destruct (Ascii.eqb_spec c "=") as [->|_].
  - intros H; injection H as <- <-. now rewrite app_nil_l, app_cons, app_nil_l.
  - destruct (split_eq s) as [[a b]|]; [|discriminate].
    intros H; injection H as <- <-. rewrite app_cons. f_equal. now apply IH.
Qed.

(** An argument of [--format] that is part of the option's own argument
    string follows an [=] sign. *)
Lemma option_tuples_format (a os : string) (ch : option (list string)) (e : string) :
  In (Optional os (Store Format ch) (Some e)) (get_option_tuples a) ->
  exists p, a = p +:+ "=" +:+ e.
Proof.
  intros Hin. apply list_elem_of_In in Hin.
  unfold get_option_tuples in Hin.
  destruct a as [|c0 [|c1 rest]]; try (now inversion Hin).
  destruct (negb (Ascii.eqb c0 "-")); [now inversion Hin|].
  destruct (Ascii.eqb c1 "-").
  - destruct (split_eq _) as [[p e']|] eqn:Es;
      apply list_elem_of_omap in Hin as [[os' act] [Hel Hf]];
      unfold long_option_tuple in Hf; simpl in Hf;
      destruct (Str.startswith os' _); try discriminate;
      inversion Hf; subst.
    exists p. now apply split_eq_spec.
  - apply list_elem_of_omap in Hin as [[os' act] [Hel Hf]].
    apply list_elem_of_In in Hel.
    unfold short_option_tuple in Hf.
    simpl in Hel.
    destruct Hel as [H|[H|[H|[H|[H|[]]]]]]; injection H as <- <-;
      cbn [fst snd] in Hf;
      destruct (String.eqb _ (String c0 (String c1 ""))) eqn:E;
      try discriminate;
      try (destruct (Str.startswith _ _); discriminate).
    apply String.eqb_eq in E. discriminate.
Qed.

Lemma classify_format (a os : string) (ch : option (list string)) (e : string) :
  classify a = Optional os (Store Format ch) (Some e) ->
  exists p, a = p +:+ "=" +:+ e.
Proof.
  unfold classify. destruct a as [|c a']; [discriminate|].
  destruct (negb (Ascii.eqb c "-")); [discriminate|].
  destruct (lookup_option (String c a')) as [act'|] eqn:El; [discriminate|].
  destruct (String.length (String c a') =? 1)%nat; [discriminate|].
  destruct (split_eq (String c a')) as [[o e']|] eqn:Es;
    cbn -[negative_number has_space get_option_tuples lookup_option].
  - destruct (lookup_option o) as [act'|] eqn:Eo;
      cbn -[negative_number has_space get_option_tuples lookup_option].
    { intros H; injection H as _ _ <-. exists o. now apply split_eq_spec. }
    destruct (get_option_tuples (String c a')) as [|t [|t' l]] eqn:Eg.
    + destruct (negative_number _); [discriminate|].
      destruct (has_space _); discriminate.
    + intros ->. apply (option_tuples_format _ os ch). rewrite Eg. now left.
    + discriminate.
  - destruct (get_option_tuples (String c a')) as [|t [|t' l]] eqn:Eg.
    + destruct (negative_number _); [discriminate|].
      destruct (has_space _); discriminate.
    + intros ->. apply (option_tuples_format _ os ch). rewrite Eg. now left.
    + discriminate.
Qed.

Lemma in_choices_In (l : list string) (v : string) :
  in_choices (Some l) v = true <-> In v l.
Proof.
  simpl. rewrite existsb_exists. split.
  - intros (x & Hin & Heq). apply String.eqb_eq in Heq. now subst.
  - intros Hin. exists v. split; [assumption | apply String.eqb_refl].
Qed.

(** What the store action does to the values collected so far. *)
Lemma store_cases (os : string) (d : dest) (choices : option (list string))
    (v : string) (st st' : pstate) :
  store os d choices v st = inr st' ->
  exists x : value,
    (v = "--" /\ x = EmptyList \/
     v <> "--" /\ in_choices choices v = true /\ x = StrValue v) /\
    p_text st' = p_text st /\ p_extras st' = p_extras st /\
    p_output st' = match d with Output => x | Format => p_output st end /\
    p_format st' = match d with Output => p_format st | Format => x end.
Proof.
  unfold store, get_values.
  destruct (String.eqb_spec v "--") as [->|Hne].
  - intros H; injection H as <-. exists EmptyList.
    destruct d; simpl; tauto.
  - destruct (in_choices choices v) eqn:Ec; [|discriminate].
    intros H; injection H as <-. exists (StrValue v).
    destruct d; simpl; tauto.
Qed.

(** A stored format is one of the declared choices, or the empty list
    when the argument is [--]; storing leaves the positional alone. *)
Lemma store_keeps (os : string) (d : dest) (choices : option (list string))
    (v : string) (st st' : pstate) :
  In (os, Store d choices) option_string_actions ->
  store os d choices v st = inr st' ->
  p_text st' = p_text st /\ p_extras st' = p_extras st /\
  (p_format st' = p_format st \/
   d = Format /\ v = "--" /\ p_format st' = EmptyList \/
   d = Format /\ In v format_choices /\ p_format st' = StrValue v).
Proof.
  intros Hin Hs.
  apply store_cases in Hs as (x & Hx & Ht & He & _ & Hf).
  split; [exact Ht|]. split; [exact He|].
  destruct d; [now left|]. right.
  destruct Hx as [[-> ->]|(Hne & Hc & ->)]; [now left|right].
  simpl in Hin.
  destruct Hin as [H|[H|[H|[H|[H|[]]]]]]; try discriminate.
  injection H as _ <-. apply in_choices_In in Hc. tauto.
Qed.

Lemma positionals_spec (args : list string) (st : pstate) :
  p_format (positionals st args) = p_format st /\
  forall t, p_text (positionals st args) = Some t ->
            p_text st = Some t \/ In t args.
Proof.
  unfold positionals. revert st; induction args as [|a args IH]; intros st; simpl.
  - split; [reflexivity | intros t Ht; now left].
  - destruct (IH (take_positional st a)) as [Hf Ht]. split.
    + rewrite Hf. unfold take_positional. now destruct (p_text st).
    + intros t H. destruct (Ht t H) as [H'|H']; [|right; now right].
      unfold take_positional in H'. destruct (p_text st) eqn:E; simpl in H'.
      * now left.
      * injection H' as ->. right; now left.
Qed.

Lemma after_separator_spec (rest : list string) (st : pstate) :
  p_format (after_separator st rest) = p_format st /\
  forall t, p_text (after_separator st rest) = Some t ->
            p_text st = Some t \/ In t rest.
Proof.
  unfold after_separator.
  destruct (p_text st) eqn:E; [destruct (p_fresh st)|];
    try (rewrite <- E; apply positionals_spec).
  destruct (positionals_spec rest (add_extra st "--")) as [Hf Ht].
  split; [exact Hf|]. intros t Hsome. rewrite <- E. now apply Ht.
Qed.

Lemma finish_parsed (st : pstate) (ns : Namespace) :
  finish st = Parsed ns ->
  p_text st = Some (text ns) /\ format ns = p_format st /\
  output ns = p_output st /\ p_extras st = [].
Proof.
  unfold finish. destruct (p_text st) as [t|]; [|discriminate].
  destruct (p_extras st); [|discriminate].
  intros H; injection H as <-. simpl. tauto.
Qed.

Lemma cluster_not_parsed (e : string) (b : bool) (ns : Namespace) :
  cluster e b <> Parsed ns.
Proof.
  revert b; induction e as [|c e IHe]; intros b; simpl; [discriminate|].
  destruct (Ascii.eqb c "h").
  - destruct e; [discriminate | apply IHe].
  - destruct (Ascii.eqb c "o"); [|discriminate].
    destruct e; [destruct b|]; discriminate.
Qed.

(** What a successful parse says about the values it returns; [l] is the
    whole command line. *)
Lemma consume_parsed (l : list string) (n : nat) :
  forall (args : list string) (st : pstate) (ns : Namespace),
    (length args <= n)%nat ->
    incl args l ->
    consume args st = Parsed ns ->
    (p_text st = Some (text ns) \/ In (text ns) args) /\
    (format_from l (p_format st) -> format_from l (format ns)).
Proof.
  induction n as [|n IH]; intros args st ns Hlen Hl Hc.
  - destruct args; [|simpl in Hlen; lia]. simpl in Hc.
    apply finish_parsed in Hc as (Ht & Hf & _). rewrite Hf. tauto.
  - destruct args as [|a rest]; simpl in Hc.
    { apply finish_parsed in Hc as (Ht & Hf & _). rewrite Hf. tauto. }
    simpl in Hlen.
    assert (Ha : In a l) by (apply Hl; now left).
    assert (Hrest : incl rest l) by (intros x Hx; apply Hl; now right).
    destruct (String.eqb a "--").
    { apply finish_parsed in Hc as (Ht & Hf & _).
      destruct (after_separator_spec rest st) as [Hf' Ht'].
      rewrite Hf, Hf'. split; [|tauto].
      destruct (Ht' _ Ht); [now left | right; now right]. }
    destruct (classify a) as [|os act e| |] eqn:Ecl.
    + apply IH in Hc as [Ht Hf]; [|lia|exact Hrest]. split.
      * destruct Ht as [Ht|Ht]; [|right; now right].
        unfold take_positional in Ht. destruct (p_text st) eqn:E; simpl in Ht.
        -- now left.
        -- injection Ht as ->. right; now left.
      * intros H. apply Hf. unfold take_positional. now destruct (p_text st).
    + pose proof (classify_table _ _ _ _ Ecl) as Htab.
      destruct act as [|d choices].
      { destruct e as [e|]; [|discriminate].
        destruct (Str.startswith os "--"); [discriminate|].
        now apply cluster_not_parsed in Hc. }
      destruct e as [e|].
      * destruct (store os d choices e st) as [err|st'] eqn:Es; [discriminate|].
        apply (store_keeps _ _ _ _ _ _ Htab) in Es as (Ht & _ & Hf).
        apply IH in Hc as [Ht' Hf']; [|lia|exact Hrest]. rewrite Ht in Ht'. split.
        -- destruct Ht'; [now left | right; now right].
        -- intros H. apply Hf'.
           destruct Hf as [->|[(-> & -> & ->)|(_ & Hin & ->)]];
             [exact H| |exact Hin].
           apply classify_format in Ecl as [p ->]. now exists p.
      * destruct rest as [|v rest']; [discriminate|]. simpl in Hlen.
        destruct (value_follows (v :: rest')) eqn:Ev; [|discriminate].
        destruct (store os d choices v st) as [err|st'] eqn:Es; [discriminate|].
        apply (store_keeps _ _ _ _ _ _ Htab) in Es as (Ht & _ & Hf).
        apply IH in Hc as [Ht' Hf']; [|lia|]; cycle 1.
        { intros x Hx. apply Hrest. now right. }
        rewrite Ht in Ht'. split.
        -- destruct Ht'; [now left | right; right; now right].
        -- intros H. apply Hf'.
           destruct Hf as [->|[(_ & -> & _)|(_ & Hin & ->)]];
             [exact H| |exact Hin].
           simpl in Ev. discriminate.
    + apply IH in Hc as [Ht Hf]; [|lia|exact Hrest]. split.
      * destruct Ht; [now left | right; now right].
      * exact Hf.
    + discriminate.
Qed.

Lemma parse_parsed (argv : list string) (ns : Namespace) :
  parse argv = Parsed ns ->
  In (text ns) argv /\ format_from argv (format ns).
Proof.
  unfold parse. destruct (first_ambiguous argv); [discriminate|].
  intros H.
  apply (consume_parsed argv (length argv)) in H as [Ht Hf];
    [|lia|apply incl_refl].
  split.
  - destruct Ht as [Ht|Ht]; [discriminate | exact Ht].
  - apply Hf. simpl. now left.
Qed.

Lemma is_value_classify (t : string) :
  is_value t = true -> classify t = Positional /\ String.eqb t "--" = false.
Proof.
  unfold is_value. intros H. split.
  - destruct (classify t); congruence.
  - destruct (String.eqb_spec t "--") as [->|]; [discriminate | reflexivity].
Qed.

Lemma parse_value_first (t : string) (rest : list string) :
  is_value t = true ->
  parse (t :: rest) =
    match first_ambiguous rest with
    | Some a => UsageError (AmbiguousOption a)
    | None => consume rest (take_positional initial t)
    end.
Proof.
  intros H. apply is_value_classify in H as [Hc He].
  unfold parse. simpl. rewrite He, Hc. reflexivity.
Qed.


Lemma parse_output_format (t : string) :
  is_value t = true ->
  parse [t; "-o"; "hello"; "--format"; "mp3"] =
    Parsed {| text := t; output := "hello"; format := "mp3" |}.
Proof. intros H. rewrite (parse_value_first _ _ H). reflexivity. Qed.




End ParserFacts.
(** ** The two command lines of the testable properties *)

Section CommandLines.
Import Argparse.

(** When the command line is the text alone and parsing succeeds, the
    other two values are the defaults. *)
Lemma parse_single_inv (t : string) (ns : Namespace) :
  parse [t] = Parsed ns ->
  ns = {| text := t; output := "speech"; format := "wav" |}.
Proof.
  unfold parse. simpl.
  destruct (String.eqb t "--"); [discriminate|].
  destruct (classify t) as [|os [|d choices] [e|]| |]; try discriminate.
  - intros H; now injection H as <-.
  - destruct (Str.startswith os "--"); [discriminate|].
    intros H. now apply cluster_not_parsed in H.
  - destruct (store os d choices e initial) as [err|st'] eqn:Es; [discriminate|].
    apply store_cases in Es as (x & _ & Ht & _).
    unfold finish. rewrite Ht. discriminate.
Qed.

Lemma parse_output_format_inv (t : string) (ns : Namespace) :
  parse [t; "-o"; "hello"; "--format"; "mp3"] = Parsed ns ->
  ns = {| text := t; output := "hello"; format := "mp3" |}.
Proof.
  unfold parse.
  change (first_ambiguous [t; "-o"; "hello"; "--format"; "mp3"]) with
    (if String.eqb t "--" then None
     else match classify t with Ambiguous => Some t | _ => None end).
  destruct (String.eqb t "--") eqn:Et.
  { cbn [consume]. rewrite Et. discriminate. }
  destruct (classify t) as [|os [|d choices] [e|]| |] eqn:Ec;
    cbn [consume]; rewrite ?Et, ?Ec; try discriminate.
  - intros H; now injection H as <-.
  - destruct (Str.startswith os "--"); [discriminate|].
    intros H. now apply cluster_not_parsed in H.
  - destruct (store os d choices e initial) as [err|st'] eqn:Es; [discriminate|].
    apply store_cases in Es as (x & _ & Ht & _).
    change (consume ["-o"; "hello"; "--format"; "mp3"] st') with
      (finish {| p_text := p_text st'; p_output := "hello"; p_format := "mp3";
                 p_extras := p_extras st' |}).
    unfold finish. simpl. rewrite Ht. discriminate.
Qed.

End CommandLines.

(** ** Symbolic runs

    A whole run of each script, for each outcome of argument parsing and of
    the credential check. *)

Section Runs.
Variable w : World.
Variable argv : list string.

Lemma not_set_present (key : string) :
  key_present w key -> Cli.not_set (environ w !! "OPENAI_API_KEY") = false.
Proof.
  intros [-> Hne]. simpl. now apply String.eqb_neq.
Qed.

Lemma not_set_missing :
  key_missing w -> Cli.not_set (environ w !! "OPENAI_API_KEY") = true.
Proof. intros [-> | ->]; reflexivity. Qed.

(** Help and usage errors end every script inside [parse_args]. *)
Lemma tts3_help :
  Argparse.parse argv = Argparse.HelpExit ->
  run w (Tts3.main w argv) = halted [HelpMessage] [] (files w) [] (Exited 0).
Proof. intros Hp. unfold Tts3.main. unfold_py. now rewrite Hp. Qed.

Lemma tts3_usage (e : Argparse.error) :
  Argparse.parse argv = Argparse.UsageError e ->
  run w (Tts3.main w argv) = halted [] [Usage e] (files w) [] (Exited 2).
Proof. intros Hp. unfold Tts3.main. unfold_py. now rewrite Hp. Qed.

Lemma tts3_no_key (ns : Argparse.Namespace) :
  Argparse.parse argv = Argparse.Parsed ns ->
  key_missing w ->
  run w (Tts3.main w argv) =
    halted [] [Text Cli.key_error] (files w) [] (Exited 1).
Proof.
  intros Hp Hk. unfold Tts3.main. unfold_py.
  rewrite Hp, (not_set_missing Hk). reflexivity.
Qed.

Lemma tts3_run (ns : Argparse.Namespace) (key : string) :
  Argparse.parse argv = Argparse.Parsed ns ->
  key_present w key ->
  let p := sent key (base_url_of w) ns in
  run w (Tts3.main w argv) =
    match requests_post w p with
    | Requests.RequestException exc =>
        halted [] [Text (network_error (Requests.url p) exc +:+ nl)]
          (files w) [HttpPost p] (Exited 1)
    | Requests.RuntimeError exc =>
        halted [] [Text (exc +:+ nl)] (files w) [HttpPost p] (Exited 1)
    | Requests.Raised exc =>
        halted [] [] (files w) [HttpPost p] (Uncaught (PyError exc))
    | Requests.Responded r =>
        if Requests.status_code r =? 200 then
          match Argparse.output ns with
          | EmptyList =>
              halted [] [] (files w) [HttpPost p]
                (Uncaught (AttributeError "'list' object has no attribute 'lower'"))
          | StrValue o =>
              let path := Cli.output_file o (Cli.format_text (Argparse.format ns)) in
              match open_wb w path (Requests.content r) with
              | Written =>
                  reported w path
                    (<[realpath w path := Requests.content r]> (files w))
                    [HttpPost p]
              | WriteFailed exc remains =>
                  halted []
                    [Text ("Error writing " +:+ path +:+ ": " +:+ exc +:+ nl)]
                    (match remains with
                     | Some d => <[realpath w path := d]> (files w)
                     | None => files w
                     end)
                    [HttpPost p] (Exited 1)
              end
          end
        else
          halted [] [Text (api_error w r +:+ nl)] (files w) [HttpPost p] (Exited 1)
    end.
Proof.
  intros Hp Hk p. pose proof (not_set_present key Hk) as Hset.
  destruct Hk as [Hkey Hne].
  unfold Tts3.main, Tts3.request_tts, reported. unfold_py.
  rewrite Hp. unfold Cli.getenv in Hset. rewrite Hset, Hkey. simpl.
  subst p. unfold sent, base_url_of, Tts3.default_model, Tts3.default_voice.
  simpl.
  destruct (requests_post w _) as [r|exc|exc|exc]; try reflexivity.
  destruct (Requests.status_code r =? 200); simpl; [|reflexivity].
  destruct (Argparse.output ns) as [o|]; simpl; [|reflexivity].
  destruct (open_wb w _ (Requests.content r)); simpl; [|reflexivity].
  destruct (print_error w _); reflexivity.
Qed.

End Runs.

Section SdkRuns.
Variable w : World.
Variable argv : list string.

Lemma tts1_help :
  Argparse.parse argv = Argparse.HelpExit ->
  run w (Tts1.main w argv) = halted [HelpMessage] [] (files w) [] (Exited 0).
Proof. intros Hp. unfold Tts1.main. unfold_py. now rewrite Hp. Qed.

Lemma tts1_usage (e : Argparse.error) :
  Argparse.parse argv = Argparse.UsageError e ->
  run w (Tts1.main w argv) = halted [] [Usage e] (files w) [] (Exited 2).
Proof. intros Hp. unfold Tts1.main. unfold_py. now rewrite Hp. Qed.

Lemma tts1_no_key (ns : Argparse.Namespace) :
  Argparse.parse argv = Argparse.Parsed ns ->
  key_missing w ->
  run w (Tts1.main w argv) =
    halted [] [Text Cli.key_error] (files w) [] (Exited 1).
Proof.
  intros Hp Hk. unfold Tts1.main. unfold_py.
  rewrite Hp, (not_set_missing w Hk). reflexivity.
Qed.

Lemma tts1_run (ns : Argparse.Namespace) (key : string) :
  Argparse.parse argv = Argparse.Parsed ns ->
  key_present w key ->
  run w (Tts1.main w argv) =
    match speech_create w "openai" (openai_call ns) with
    | Sdk.Raised exc =>
        halted [] [] (files w) [SdkCreate "openai" (openai_call ns)]
          (Uncaught (SdkError exc))
    | Sdk.Returned r => saved w ns (SdkCreate "openai" (openai_call ns)) r
    end.
Proof.
  intros Hp Hk. pose proof (not_set_present w key Hk) as Hset.
  unfold Tts1.main, saved, reported, openai_call. unfold_py.
  rewrite Hp, Hset. simpl.
  destruct (speech_create w "openai" _) as [r|exc]; [|reflexivity].
  destruct (Cli.audio_of r) as [d|]; [|reflexivity].
  destruct (Argparse.output ns) as [o|]; simpl; [|reflexivity].
  destruct (open_wb w _ d); simpl; [|reflexivity].
  destruct (print_error w _); reflexivity.
Qed.

Lemma tts2_help :
  Argparse.parse argv = Argparse.HelpExit ->
  run w (Tts2.main w argv) = halted [HelpMessage] [] (files w) [] (Exited 0).
Proof. intros Hp. unfold Tts2.main. unfold_py. now rewrite Hp. Qed.

Lemma tts2_usage (e : Argparse.error) :
  Argparse.parse argv = Argparse.UsageError e ->
  run w (Tts2.main w argv) = halted [] [Usage e] (files w) [] (Exited 2).
Proof. intros Hp. unfold Tts2.main. unfold_py. now rewrite Hp. Qed.

Lemma tts2_no_key (ns : Argparse.Namespace) :
  Argparse.parse argv = Argparse.Parsed ns ->
  key_missing w ->
  run w (Tts2.main w argv) =
    halted [] [Text Cli.key_error] (files w) [] (Exited 1).
Proof.
  intros Hp Hk. unfold Tts2.main. unfold_py.
  rewrite Hp, (not_set_missing w Hk). reflexivity.
Qed.

Lemma tts2_run (ns : Argparse.Namespace) (key : string) :
  Argparse.parse argv = Argparse.Parsed ns ->
  key_present w key ->
  run w (Tts2.main w argv) =
    match speech_create w "litellm" (litellm_call key ns) with
    | Sdk.Raised exc =>
        halted [] [] (files w) [SdkCreate "litellm" (litellm_call key ns)]
          (Uncaught (SdkError exc))
    | Sdk.Returned r => saved w ns (SdkCreate "litellm" (litellm_call key ns)) r
    end.
Proof.
  intros Hp Hk. pose proof (not_set_present w key Hk) as Hset.
  destruct Hk as [Hkey Hne].
  unfold Tts2.main, saved, reported, litellm_call. unfold_py.
  unfold Cli.getenv in Hset. rewrite Hp, Hset, Hkey. simpl.
  destruct (speech_create w "litellm" _) as [r|exc]; [|reflexivity].
  destruct (Cli.audio_of r) as [d|]; [|reflexivity].
  destruct (Argparse.output ns) as [o|]; simpl; [|reflexivity].
  destruct (open_wb w _ d); simpl; [|reflexivity].
  destruct (print_error w _); reflexivity.
Qed.

End SdkRuns.

(** ** Which calls a run makes *)

Section Calls.
Variable w : World.
Variable argv : list string.

Lemma key_cases : key_missing w \/ exists key, key_present w key.
Proof.
  unfold key_missing, key_present.
  destruct (environ w !! "OPENAI_API_KEY") as [k|]; [|left; now left].
  destruct (String.eqb_spec k "") as [->|Hne]; [left; now right|].
  right. now exists k.
Qed.

Lemma tts3_issued (ns : Argparse.Namespace) (key : string) :
  Argparse.parse argv = Argparse.Parsed ns ->
  key_present w key ->
  calls (final (run w (Tts3.main w argv))) =
    [HttpPost (sent key (base_url_of w) ns)].
Proof.
  intros Hp Hk. rewrite (tts3_run w argv ns key Hp Hk). cbv zeta.
  destruct (requests_post w _) as [r|exc|exc|exc]; try reflexivity.
  destruct (Requests.status_code r =? 200); [|reflexivity].
  destruct (Argparse.output ns) as [o|]; [|reflexivity].
  destruct (open_wb w _ _); [|reflexivity].
  unfold reported. destruct (print_error w _); reflexivity.
Qed.

Lemma tts1_issued (ns : Argparse.Namespace) (key : string) :
  Argparse.parse argv = Argparse.Parsed ns ->
  key_present w key ->
  calls (final (run w (Tts1.main w argv))) = [SdkCreate "openai" (openai_call ns)].
Proof.
  intros Hp Hk. rewrite (tts1_run w argv ns key Hp Hk). unfold saved.
  destruct (speech_create w _ _) as [r|exc]; [|reflexivity].
  destruct (Cli.audio_of r); [|reflexivity].
  destruct (Argparse.output ns) as [o|]; [|reflexivity].
  destruct (open_wb w _ _); [|reflexivity].
  unfold reported. destruct (print_error w _); reflexivity.
Qed.

Lemma tts2_issued (ns : Argparse.Namespace) (key : string) :
  Argparse.parse argv = Argparse.Parsed ns ->
  key_present w key ->
  calls (final (run w (Tts2.main w argv))) =
    [SdkCreate "litellm" (litellm_call key ns)].
Proof.
  intros Hp Hk. rewrite (tts2_run w argv ns key Hp Hk). unfold saved.
  destruct (speech_create w _ _) as [r|exc]; [|reflexivity].
  destruct (Cli.audio_of r); [|reflexivity].
  destruct (Argparse.output ns) as [o|]; [|reflexivity].
  destruct (open_wb w _ _); [|reflexivity].
  unfold reported. destruct (print_error w _); reflexivity.
Qed.

(** A run makes no call at all, or exactly the one call of its script. *)
Lemma tts3_calls :
  calls (final (run w (Tts3.main w argv))) = [] \/
  exists ns key, Argparse.parse argv = Argparse.Parsed ns /\ key_present w key /\
    calls (final (run w (Tts3.main w argv))) =
      [HttpPost (sent key (base_url_of w) ns)].
Proof.
  destruct (Argparse.parse argv) as [ns| |e] eqn:Hp.
  - destruct key_cases as [Hk|[key Hk]].
    + left. now rewrite (tts3_no_key w argv ns).
    + right. exists ns, key. auto using tts3_issued.
  - left. now rewrite (tts3_help w argv).
  - left. now rewrite (tts3_usage w argv e).
Qed.

Lemma tts1_calls :
  calls (final (run w (Tts1.main w argv))) = [] \/
  exists ns, Argparse.parse argv = Argparse.Parsed ns /\
    calls (final (run w (Tts1.main w argv))) = [SdkCreate "openai" (openai_call ns)].
Proof.
  destruct (Argparse.parse argv) as [ns| |e] eqn:Hp.
  - destruct key_cases as [Hk|[key Hk]].
    + left. now rewrite (tts1_no_key w argv ns).
    + right. exists ns. eauto using tts1_issued.
  - left. now rewrite (tts1_help w argv).
  - left. now rewrite (tts1_usage w argv e).
Qed.

Lemma tts2_calls :
  calls (final (run w (Tts2.main w argv))) = [] \/
  exists ns key, Argparse.parse argv = Argparse.Parsed ns /\ key_present w key /\
    calls (final (run w (Tts2.main w argv))) =
      [SdkCreate "litellm" (litellm_call key ns)].
Proof.
  destruct (Argparse.parse argv) as [ns| |e] eqn:Hp.
  - destruct key_cases as [Hk|[key Hk]].
    + left. now rewrite (tts2_no_key w argv ns).
    + right. exists ns, key. auto using tts2_issued.
  - left. now rewrite (tts2_help w argv).
  - left. now rewrite (tts2_usage w argv e).
Qed.

End Calls.

(** ** The claims of the specification *)

Section Claims.
Import Argparse.

(** C10: the URL that [request_tts] posts to is the base URL without its
    trailing slashes, followed by [/audio/speech]; one more trailing slash
    on the base URL gives the same URL, and the URL never has a double
    slash where the base URL and the path meet. *)
Theorem request_url_strips_slashes
    (w : World) (api_key text : string) (audio_format : value)
    (u model voice : string) (instructions : option string) (st : Proc) :
  (exists p, calls (snd (Tts3.request_tts w api_key text audio_format u
                           model voice instructions st))
             = calls st ++ [HttpPost p] /\
             Requests.url p = Tts3.request_url u) /\
  (exists (s : string) (n : nat),
      u = s +:+ Str.repeat "/" n /\
      Str.endswith s "/" = false /\
      Tts3.request_url u = s +:+ "/audio/speech") /\
  Tts3.request_url (u +:+ "/") = Tts3.request_url u /\
  ~ (exists p, Tts3.request_url u = p +:+ "//audio/speech").
Proof.
  split; [|split; [|split]].
  - unfold Tts3.request_tts. unfold_py.
    destruct (requests_post w _) as [r|exc|exc|exc]; simpl; eauto.
    destruct (negb (Requests.status_code r =? 200)); simpl; eauto.
  - destruct (rstrip_repeat "/" u) as [n Hn].
    exists (Str.rstrip "/" u), n. split; [exact Hn|]. split; [|reflexivity].
    apply rstrip_no_trailing.
  - unfold Tts3.request_url. now rewrite rstrip_app_char.
  - intros [p Hp]. unfold Tts3.request_url in Hp.
    change "//audio/speech" with ("/" +:+ "/audio/speech") in Hp.
    rewrite <- app_assoc in Hp.
    assert (Hs : Str.rstrip "/" u = p +:+ "/").
    { revert Hp. generalize (Str.rstrip "/" u) (p +:+ "/").
      intros a b Hab.
      assert (Hl : String.length a = String.length b).
      { apply (f_equal String.length) in Hab. rewrite !app_length in Hab. lia. }
      revert b Hab Hl. induction a as [|x a IH]; intros [|y b] Hab Hl;
        try discriminate; [reflexivity|].
      rewrite !app_cons in Hab. injection Hab as -> Hab.
      f_equal. apply IH; [exact Hab | simpl in Hl; lia]. }
    pose proof (rstrip_no_trailing "/" u) as Hno.
    apply endswith_false in Hno. apply Hno. now exists p.
Qed.

(** C2: the output file name is the base name when its lowercase ends
    with a dot and the format, and the base name followed by a dot and the
    format otherwise; a suffix in any letter case counts, and
    [hello.wav] with format [wav] stays [hello.wav]. *)
Theorem output_file_extension (b f : string) :
  ((exists p, Str.lower b = p +:+ "." +:+ f) -> Cli.output_file b f = b) /\
  (~ (exists p, Str.lower b = p +:+ "." +:+ f) ->
     Cli.output_file b f = b +:+ "." +:+ f) /\
  (forall p s, b = p +:+ s -> Str.lower s = "." +:+ f -> Cli.output_file b f = b) /\
  Cli.output_file "hello.wav" "wav" = "hello.wav" /\
  Cli.output_file "hello.wav" "wav" <> "hello.wav.wav".
Proof.
  assert (Hyes : (exists p, Str.lower b = p +:+ "." +:+ f) -> Cli.output_file b f = b).
  { intros H. apply endswith_spec in H. unfold Cli.output_file. now rewrite H. }
  split; [exact Hyes|]. split; [|split; [|split]].
  - intros H. apply endswith_false in H. unfold Cli.output_file. now rewrite H.
  - intros p s -> Hs. apply Hyes. exists (Str.lower p).
    now rewrite lower_app, Hs.
  - reflexivity.
  - discriminate.
Qed.

Lemma output_file_extension_witness :
  Cli.output_file "Hello.WAV" "wav" = "Hello.WAV" /\
  Cli.output_file "hello" "mp3" = "hello.mp3".
Proof.
  split.
  - apply (proj1 (output_file_extension "Hello.WAV" "wav")).
    exists "hello". reflexivity.
  - apply (proj1 (proj2 (output_file_extension "hello" "mp3"))).
    apply endswith_false. reflexivity.
Defined.

(** C1: take a run of [3-tts.py] whose request is answered with status
    200 and body [B].  If the run is successful (it ends with exit code 0),
    the output file holds exactly [B] and no other file has changed.  The
    file is written, with exactly [B], whenever the output name is a string
    and the file can be written, also when the confirmation line cannot be
    printed afterwards; the run is then successful when the line can be
    printed.  With the text as only argument the file is [speech.wav], with
    [-o hello --format mp3] it is [hello.mp3].  When the output name is the
    empty list that [--output=--] leaves, the run stops on an
    [AttributeError] and writes nothing. *)
Theorem success_writes_body
    (w : World) (argv : list string) (ns : Namespace) (key : string)
    (r : Requests.Response) :
  parse argv = Parsed ns ->
  key_present w key ->
  requests_post w (sent key (base_url_of w) ns) = Requests.Responded r ->
  Requests.status_code r = 200 ->
  let res := run w (Tts3.main w argv) in
  let body := Requests.content r in
  let written (path : string) :=
    fs (final res) = <[realpath w path := body]> (files w) /\
    fs (final res) !! realpath w path = Some body /\
    (forall other, other <> realpath w path ->
                   fs (final res) !! other = files w !! other) in
  (exit_code (ending res) = 0 ->
   exists o, output ns = StrValue o /\
             ending res = Finished /\
             written (Cli.output_file o (Cli.format_text (format ns)))) /\
  (forall o, output ns = StrValue o ->
     let path := Cli.output_file o (Cli.format_text (format ns)) in
     open_wb w path body = Written ->
     written path /\
     (print_error w ("✔ Audio saved to " +:+ path) = None ->
      ending res = Finished /\ exit_code (ending res) = 0) /\
     (forall t, argv = [t] -> path = "speech.wav") /\
     (forall t, argv = [t; "-o"; "hello"; "--format"; "mp3"] ->
                path = "hello.mp3")) /\
  (output ns = EmptyList ->
   ending res = Uncaught (AttributeError "'list' object has no attribute 'lower'") /\
   fs (final res) = files w).
Proof.
  intros Hp Hk Hr Hs res body written. subst res body written.
  rewrite (tts3_run w argv ns key Hp Hk). cbv zeta.
  rewrite Hr, Hs. simpl Z.eqb. cbv iota.
  split; [|split].
  - destruct (output ns) as [o|]; [|discriminate].
    destruct (open_wb w _ _); [|discriminate].
    unfold reported. destruct (print_error w _); [discriminate|].
    unfold halted. simpl. intros _. exists o. repeat split.
    + apply lookup_insert_eq.
    + intros other Hne. now apply lookup_insert_ne.
  - intros o Ho Hw. rewrite Ho, Hw. unfold reported. split; [|split; [|split]].
    + destruct (print_error w _); unfold halted; simpl; repeat split;
        try apply lookup_insert_eq;
        intros other Hne; now apply lookup_insert_ne.
    + intros ->. now split.
    + intros t ->. apply parse_single_inv in Hp. subst ns.
      injection Ho as <-. reflexivity.
    + intros t ->. apply parse_output_format_inv in Hp. subst ns.
      injection Ho as <-. reflexivity.
  - intros ->. now split.
Qed.

Lemma success_writes_body_witness :
  let w := Examples.mock Examples.with_key (Examples.ok Examples.riff) in
  fs (final (run w (Tts3.main w ["Hello world"]))) !! "speech.wav"
    = Some Examples.riff /\
  fs (final (run w (Tts3.main w ["Hello world"; "-o"; "hello"; "--format"; "mp3"])))
    !! "hello.mp3" = Some Examples.riff /\
  exit_code (ending (run w (Tts3.main w ["Hello world"]))) = 0.
Proof.
  intros w.
  assert (Hk : key_present w "sk-test") by (split; [reflexivity | discriminate]).
  split; [|split].
  - exact (proj1 (proj2 (proj1
      (proj1 (proj2
         (success_writes_body w ["Hello world"]
            {| text := "Hello world"; output := "speech"; format := "wav" |}
            "sk-test" (Examples.ok_response Examples.riff)
            eq_refl Hk eq_refl eq_refl))
         "speech" eq_refl eq_refl)))).
  - exact (proj1 (proj2 (proj1
      (proj1 (proj2
         (success_writes_body w ["Hello world"; "-o"; "hello"; "--format"; "mp3"]
            {| text := "Hello world"; output := "hello"; format := "mp3" |}
            "sk-test" (Examples.ok_response Examples.riff)
            eq_refl Hk eq_refl eq_refl))
         "hello" eq_refl eq_refl)))).
  - exact (proj2 (proj1 (proj2
      (proj1 (proj2
         (success_writes_body w ["Hello world"]
            {| text := "Hello world"; output := "speech"; format := "wav" |}
            "sk-test" (Examples.ok_response Examples.riff)
            eq_refl Hk eq_refl eq_refl))
         "speech" eq_refl eq_refl)) eq_refl)).
Defined.

(** The message that [request_tts] extracts is the nested field when
    the body has one, and the empty string otherwise. *)
Lemma error_message_nested (r : Requests.Response) :
  Tts3.error_message r = from_option id (JStr "") (nested_message r).
Proof.
  unfold Tts3.error_message, nested_message.
  destruct (Requests.json r) as [[| | | | | |top]|]; try reflexivity.
  simpl. destruct (assoc "error" top) as [[| | | | | |err]|]; try reflexivity.
Qed.

Lemma contains_middle (p s q : string) : Str.contains (p +:+ s +:+ q) s.
Proof. now exists p, q. Qed.

(** C4: a response whose status is not 200 ends the run with exit code 1
    and a diagnostic that holds the status code and the nested
    [error.message] of the JSON body when there is one, the raw response
    text otherwise; for status 400 with the body
    [{"error":{"message":"bad input"}}] the diagnostic holds [bad input]. *)
Theorem api_error_reported
    (w : World) (argv : list string) (ns : Namespace) (key : string)
    (r : Requests.Response) :
  parse argv = Parsed ns ->
  key_present w key ->
  requests_post w (sent key (base_url_of w) ns) = Requests.Responded r ->
  Requests.status_code r <> 200 ->
  let res := run w (Tts3.main w argv) in
  exists detail : string,
    let diagnostic :=
      "API error " +:+ pretty (Requests.status_code r) +:+ ": " +:+ detail in
    ending res = Exited 1 /\
    exit_code (ending res) <> 0 /\
    stderr (final res) = [Text (diagnostic +:+ nl)] /\
    stdout (final res) = [] /\
    fs (final res) = files w /\
    Str.contains diagnostic (pretty (Requests.status_code r)) /\
    (forall m, nested_message r = Some (JStr m) -> Str.contains diagnostic m) /\
    (forall m, nested_message r = Some (JStr m) -> m <> "" -> detail = m) /\
    (nested_message r = None -> detail = Requests.text r) /\
    (forall v, nested_message r = Some v ->
               detail = if truthy v then Tts3.format_value w v
                        else Requests.text r) /\
    (r = Examples.bad_input_response ->
     Str.contains diagnostic "bad input").
Proof.
  intros Hp Hk Hr Hs res. subst res.
  rewrite (tts3_run w argv ns key Hp Hk). cbv zeta. rewrite Hr.
  apply Z.eqb_neq in Hs. rewrite Hs. unfold halted, api_error. simpl.
  rewrite error_message_nested.
  set (detail := if truthy (from_option id (JStr "") (nested_message r))
                 then Tts3.format_value w (from_option id (JStr "") (nested_message r))
                 else Requests.text r).
  exists detail.
  assert (Hv : forall v, nested_message r = Some v ->
               detail = if truthy v then Tts3.format_value w v
                        else Requests.text r).
  { intros v Hv. subst detail. now rewrite Hv. }
  assert (Hm : forall m, nested_message r = Some (JStr m) -> m <> "" -> detail = m).
  { intros m H Hne. rewrite (Hv _ H). simpl.
    apply String.eqb_neq in Hne. now rewrite Hne. }
  repeat split; try reflexivity; try assumption.
  - discriminate.
  - apply contains_middle.
  - intros m H. destruct (String.eqb_spec m "") as [->|Hne].
    + exists ("API error " +:+ pretty (Requests.status_code r) +:+ ": " +:+ detail), "".
      now rewrite app_nil_l, app_nil_r.
    + rewrite (Hm m H Hne).
      exists ("API error " +:+ pretty (Requests.status_code r) +:+ ": "), "".
      now rewrite app_nil_r, !app_assoc.
  - intros H. subst detail. now rewrite H.
  - intros ->.
    exists ("API error " +:+ pretty (Requests.status_code Examples.bad_input_response)
            +:+ ": "), "".
    rewrite (Hm "bad input"); [|reflexivity|discriminate].
    now rewrite app_nil_r, !app_assoc.
Qed.

Lemma api_error_reported_witness :
  let w := Examples.mock Examples.with_key Examples.bad_input in
  exists detail : string,
    stderr (final (run w (Tts3.main w ["Hello world"])))
      = [Text (("API error " +:+ "400" +:+ ": " +:+ detail) +:+ nl)] /\
    Str.contains ("API error " +:+ "400" +:+ ": " +:+ detail) "bad input".
Proof.
  intros w.
  assert (Hk : key_present w "sk-test") by (split; [reflexivity | discriminate]).
  destruct (api_error_reported w ["Hello world"]
              {| text := "Hello world"; output := "speech"; format := "wav" |}
              "sk-test" Examples.bad_input_response eq_refl Hk eq_refl)
    as (detail & _ & _ & Herr & _ & _ & _ & _ & _ & _ & _ & Hbad).
  - discriminate.
  - exists detail. split; [exact Herr | exact (Hbad eq_refl)].
Defined.

(** C5: a transport failure ends the run with exit code 1 and a
    network-error diagnostic that carries the cause; nothing is printed on
    standard output and the file system is unchanged. *)
Theorem network_error_reported
    (w : World) (argv : list string) (ns : Namespace) (key exc : string) :
  parse argv = Parsed ns ->
  key_present w key ->
  requests_post w (sent key (base_url_of w) ns) = Requests.RequestException exc ->
  let res := run w (Tts3.main w argv) in
  let diagnostic :=
    "Network error while contacting " +:+ Tts3.request_url (base_url_of w)
      +:+ ": " +:+ exc in
  ending res = Exited 1 /\
  exit_code (ending res) <> 0 /\
  stderr (final res) = [Text (diagnostic +:+ nl)] /\
  Str.contains diagnostic exc /\
  stdout (final res) = [] /\
  fs (final res) = files w.
Proof.
  intros Hp Hk Hr res diagnostic. subst res diagnostic.
  rewrite (tts3_run w argv ns key Hp Hk). cbv zeta. rewrite Hr.
  unfold halted, network_error. simpl.
  repeat split; try reflexivity.
  - discriminate.
  - exists ("Network error while contacting " +:+ Tts3.request_url (base_url_of w)
            +:+ ": "), "".
    now rewrite app_nil_r, !app_assoc.
Qed.

Lemma network_error_reported_witness :
  let w := Examples.mock Examples.with_key
             (Requests.RequestException "ConnectionError") in
  exit_code (ending (run w (Tts3.main w ["Hello world"]))) <> 0 /\
  fs (final (run w (Tts3.main w ["Hello world"]))) = ∅.
Proof.
  intros w.
  assert (Hk : key_present w "sk-test") by (split; [reflexivity | discriminate]).
  destruct (network_error_reported w ["Hello world"]
              {| text := "Hello world"; output := "speech"; format := "wav" |}
              "sk-test" "ConnectionError" eq_refl Hk eq_refl)
    as (_ & Hex & _ & _ & _ & Hfs).
  split; [exact Hex | exact Hfs].
Defined.

(** Every script ends inside [parse_args] on a help request or a usage
    error, and at the credential check when the key is missing. *)
Lemma script_early_exit (w : World) (argv : list string)
    (main : World -> list string -> Py unit) :
  In main scripts ->
  (parse argv = HelpExit ->
   run w (main w argv) = halted [HelpMessage] [] (files w) [] (Exited 0)) /\
  (forall e, parse argv = UsageError e ->
   run w (main w argv) = halted [] [Usage e] (files w) [] (Exited 2)) /\
  (forall ns, parse argv = Parsed ns -> key_missing w ->
   run w (main w argv) = halted [] [Text Cli.key_error] (files w) [] (Exited 1)).
Proof.
  intros [<-|[<-|[<-|[]]]]; repeat split;
    eauto using tts1_help, tts1_usage, tts1_no_key, tts2_help, tts2_usage,
      tts2_no_key, tts3_help, tts3_usage, tts3_no_key.
Qed.

(** C3, as the scripts behave: without a credential no script makes a
    request or touches the file system; unless the command line asks for
    help, the run ends with a non-zero exit code and a diagnostic on
    standard error.  A help request prints the help text and exits
    with code 0. *)
Theorem missing_key_stops_before_request
    (w : World) (argv : list string) (main : World -> list string -> Py unit) :
  key_missing w ->
  In main scripts ->
  let res := run w (main w argv) in
  calls (final res) = [] /\
  fs (final res) = files w /\
  (parse argv <> HelpExit ->
   exit_code (ending res) <> 0 /\ stderr (final res) <> []) /\
  (parse argv = HelpExit ->
   exit_code (ending res) = 0 /\ stderr (final res) = []) /\
  (forall ns, parse argv = Parsed ns ->
   ending res = Exited 1 /\ stderr (final res) = [Text Cli.key_error]).
Proof.
  intros Hk Hin res. subst res.
  destruct (script_early_exit w argv main Hin) as (Hhelp & Husage & Hkey).
  destruct (parse argv) as [ns| |e] eqn:Hp.
  - rewrite (Hkey ns eq_refl Hk). unfold halted; simpl.
    repeat split; try discriminate.
  - rewrite (Hhelp eq_refl). unfold halted; simpl.
    repeat split; try discriminate; congruence.
  - rewrite (Husage e eq_refl). unfold halted; simpl.
    repeat split; try discriminate.
Qed.

Lemma missing_key_stops_before_request_witness :
  let w := Examples.mock ∅ (Examples.ok Examples.riff) in
  calls (final (run w (Tts3.main w ["Hello world"]))) = [] /\
  exit_code (ending (run w (Tts3.main w ["Hello world"]))) <> 0.
Proof.
  intros w.
  assert (Hk : key_missing w) by (left; reflexivity).
  assert (Hin : In Tts3.main scripts) by (right; right; left; reflexivity).
  destruct (missing_key_stops_before_request w ["Hello world"] Tts3.main Hk Hin)
    as (Hcalls & _ & Hexit & _).
  split; [exact Hcalls|]. apply Hexit. discriminate.
Defined.

(** C3 as stated fails on a help request: no credential, exit code 0,
    nothing on standard error. *)
Lemma missing_key_help_exits_zero :
  let w := Examples.mock ∅ (Examples.ok Examples.riff) in
  let res := run w (Tts3.main w ["--help"]) in
  key_missing w /\
  exit_code (ending res) = 0 /\
  stderr (final res) = [] /\
  stdout (final res) = [HelpMessage].
Proof.
  intros w res. split; [left; reflexivity|]. repeat split.
Qed.

Lemma repeat_snoc (c : ascii) (n : nat) :
  Str.repeat c (S n) = Str.repeat c n +:+ String c "".
Proof.
  induction n as [|n IH]; [reflexivity|].
  change (Str.repeat c (S (S n))) with (String c (Str.repeat c (S n))).
  rewrite IH at 1. reflexivity.
Qed.

Lemma rstrip_id (c : ascii) (u : string) :
  Str.endswith u (String c "") = false -> Str.rstrip c u = u.
Proof.
  intros H. destruct (rstrip_repeat c u) as [[|n] Hn].
  - simpl in Hn. now rewrite app_nil_r in Hn.
  - exfalso. apply endswith_false in H. apply H.
    exists (Str.rstrip c u +:+ Str.repeat c n).
    now rewrite app_assoc, <- repeat_snoc.
Qed.

(** C6, as the scripts behave: [3-tts.py] posts to the base URL without
    its trailing slashes followed by [/audio/speech] (the base URL itself
    when it has no trailing slash), with the two headers and the five body
    fields of the wire contract; the SDK scripts hand the same five fields
    to [client.audio.speech.create]. *)
Theorem request_wire_contract
    (w : World) (argv : list string) (ns : Namespace) (key : string) :
  parse argv = Parsed ns ->
  key_present w key ->
  let body :=
    [ ("model", JStr "gpt-4o-mini-tts");
      ("voice", JStr "alloy");
      ("input", JStr (text ns));
      ("instructions", JStr "Speak in a cheerful and positive tone.");
      ("response_format", Cli.value_json (format ns)) ] in
  (exists p,
      calls (final (run w (Tts3.main w argv))) = [HttpPost p] /\
      Requests.url p = Str.rstrip "/" (base_url_of w) +:+ "/audio/speech" /\
      (Str.endswith (base_url_of w) "/" = false ->
       Requests.url p = base_url_of w +:+ "/audio/speech") /\
      Requests.headers p =
        [ ("Authorization", "Bearer " +:+ key);
          ("Content-Type", "application/json") ] /\
      Requests.json_body p = body) /\
  (exists c,
      calls (final (run w (Tts1.main w argv))) = [SdkCreate "openai" c] /\
      Sdk.create_kwargs c = body) /\
  (exists c,
      calls (final (run w (Tts2.main w argv))) = [SdkCreate "litellm" c] /\
      Sdk.create_kwargs c = body) /\
  (forall f, format ns = StrValue f ->
             assoc "response_format" body = Some (JStr f)).
Proof.
  intros Hp Hk body. split; [|split; [|split]].
  - exists (sent key (base_url_of w) ns).
    rewrite (tts3_issued w argv ns key Hp Hk).
    repeat split. intros H. simpl. unfold Tts3.request_url.
    now rewrite (rstrip_id _ _ H).
  - exists (openai_call ns). rewrite (tts1_issued w argv ns key Hp Hk). now split.
  - exists (litellm_call key ns). rewrite (tts2_issued w argv ns key Hp Hk).
    now split.
  - intros f Hf. subst body. now rewrite Hf.
Qed.

Lemma request_wire_contract_witness :
  let w := Examples.mock Examples.with_key (Examples.ok Examples.riff) in
  exists p,
    calls (final (run w (Tts3.main w ["Hello world"; "--format"; "mp3"])))
      = [HttpPost p] /\
    Requests.url p = "https://api.openai.com/v1/audio/speech" /\
    Requests.headers p =
      [ ("Authorization", "Bearer sk-test");
        ("Content-Type", "application/json") ].
Proof.
  intros w.
  assert (Hk : key_present w "sk-test") by (split; [reflexivity | discriminate]).
  destruct (request_wire_contract w ["Hello world"; "--format"; "mp3"]
              {| text := "Hello world"; output := "speech"; format := "mp3" |}
              "sk-test" eq_refl Hk)
    as ((p & Hc & Hu & _ & Hh & _) & _).
  exists p. split; [exact Hc|]. split; [exact Hu | exact Hh].
Defined.

(** C6 as stated fails when the base URL ends with a slash: the request
    does not go to the base URL followed by [/audio/speech]. *)
Lemma trailing_slash_not_kept :
  let w := Examples.mock (Examples.with_key_and_base "https://api.openai.com/v1/")
             (Examples.ok Examples.riff) in
  base_url_of w = "https://api.openai.com/v1/" /\
  exists p,
    calls (final (run w (Tts3.main w ["Hello world"]))) = [HttpPost p] /\
    Requests.url p = "https://api.openai.com/v1/audio/speech" /\
    Requests.url p <> base_url_of w +:+ "/audio/speech".
Proof.
  intros w. split; [reflexivity|].
  eexists. split; [reflexivity|]. split; [reflexivity | discriminate].
Qed.

(** C7, as the scripts behave: [3-tts.py] sends its request to
    [OPENAI_BASE_URL] when the variable is set and to
    [https://api.openai.com/v1] when it is not; so does the client of
    [1-tts.py], which is built without a base URL and takes the one of the
    environment, or the default; [2-tts.py] always gives its client the
    fixed base URL [https://api.openai.com/v1], whatever the environment. *)
Theorem base_url_per_script
    (w : World) (argv : list string) (ns : Namespace) (key : string) :
  parse argv = Parsed ns ->
  key_present w key ->
  (exists p,
      calls (final (run w (Tts3.main w argv))) = [HttpPost p] /\
      (forall u, environ w !! "OPENAI_BASE_URL" = Some u ->
                 Requests.url p = Str.rstrip "/" u +:+ "/audio/speech") /\
      (environ w !! "OPENAI_BASE_URL" = None ->
       Requests.url p = "https://api.openai.com/v1/audio/speech")) /\
  (exists c,
      calls (final (run w (Tts1.main w argv))) = [SdkCreate "openai" c] /\
      (forall u, environ w !! "OPENAI_BASE_URL" = Some u ->
                 Sdk.base_url (environ w) c = JStr u) /\
      (environ w !! "OPENAI_BASE_URL" = None ->
       Sdk.base_url (environ w) c = JStr "https://api.openai.com/v1")) /\
  (exists c,
      calls (final (run w (Tts2.main w argv))) = [SdkCreate "litellm" c] /\
      passed_base_url c = Some (JStr "https://api.openai.com/v1") /\
      Sdk.base_url (environ w) c = JStr "https://api.openai.com/v1").
Proof.
  intros Hp Hk. split; [|split].
  - exists (sent key (base_url_of w) ns).
    rewrite (tts3_issued w argv ns key Hp Hk). split; [reflexivity|].
    unfold base_url_of, Cli.getenv_default. simpl. unfold Tts3.request_url.
    split; [intros u -> | intros ->]; reflexivity.
  - exists (openai_call ns). rewrite (tts1_issued w argv ns key Hp Hk).
    split; [reflexivity|]. unfold Sdk.base_url. simpl.
    split; [intros u -> | intros ->]; reflexivity.
  - exists (litellm_call key ns). rewrite (tts2_issued w argv ns key Hp Hk).
    now repeat split.
Qed.

Lemma base_url_per_script_witness :
  let w := Examples.mock (Examples.with_key_and_base "http://localhost:8080/v1")
             (Examples.ok Examples.riff) in
  (exists p,
     calls (final (run w (Tts3.main w ["Hello world"]))) = [HttpPost p] /\
     Requests.url p = "http://localhost:8080/v1/audio/speech") /\
  (exists c,
     calls (final (run w (Tts1.main w ["Hello world"]))) = [SdkCreate "openai" c] /\
     Sdk.base_url (environ w) c = JStr "http://localhost:8080/v1").
Proof.
  intros w.
  assert (Hk : key_present w "sk-test") by (split; [reflexivity | discriminate]).
  destruct (base_url_per_script w ["Hello world"]
              {| text := "Hello world"; output := "speech"; format := "wav" |}
              "sk-test" eq_refl Hk)
    as ((p & Hc & Hset & _) & (c & Hc1 & Hset1 & _) & _).
  split.
  - exists p. split; [exact Hc|].
    exact (Hset "http://localhost:8080/v1" eq_refl).
  - exists c. split; [exact Hc1|].
    exact (Hset1 "http://localhost:8080/v1" eq_refl).
Defined.

(** C7 as stated fails for [2-tts.py]: with [OPENAI_BASE_URL] set, its
    client is still given, and uses, the fixed base URL. *)
Lemma fixed_base_url_ignores_environment :
  let w := Examples.sdk_mock
             (Examples.with_key_and_base "http://localhost:8080/v1") Examples.riff in
  environ w !! "OPENAI_BASE_URL" = Some "http://localhost:8080/v1" /\
  exists c,
    calls (final (run w (Tts2.main w ["Hello world"]))) = [SdkCreate "litellm" c] /\
    passed_base_url c = Some (JStr "https://api.openai.com/v1") /\
    Sdk.base_url (environ w) c = JStr "https://api.openai.com/v1" /\
    Sdk.base_url (environ w) c <> JStr "http://localhost:8080/v1".
Proof.
  intros w. split; [reflexivity|].
  eexists. split; [reflexivity|]. split; [reflexivity|].
  split; [reflexivity | discriminate].
Qed.

(** C8, as the scripts behave: every request of [3-tts.py] is issued
    with [timeout=60], so the client waits at most 60 seconds for the
    endpoint, and a request that the endpoint leaves waiting longer fails
    as a timeout: the run ends with exit code 1, the network-error
    diagnostic and no file written; an endpoint that answers in time is
    waited for.  [1-tts.py] and [2-tts.py] give no timeout to the SDK. *)
Theorem timeout_per_script (w : World) (argv : list string) :
  (forall e, In e (calls (final (run w (Tts3.main w argv)))) ->
             passed_timeout e = Some (JInt 60)) /\
  (forall ns key, parse argv = Parsed ns -> key_present w key ->
     let res := run w (Tts3.main w argv) in
     exists p, calls (final res) = [HttpPost p] /\
               Requests.timeout p = 60 /\
               waited w p <= 60 /\
               (latency w p = None \/ (exists d, latency w p = Some d /\ 60 < d) ->
                requests_post w p = Requests.RequestException (timeout_exc w p) /\
                waited w p = 60 /\
                ending res = Exited 1 /\
                stderr (final res)
                  = [Text (network_error (Requests.url p) (timeout_exc w p) +:+ nl)] /\
                fs (final res) = files w) /\
               (forall d, latency w p = Some d -> d <= 60 ->
                          requests_post w p = endpoint w p /\ waited w p = d)) /\
  (forall e, In e (calls (final (run w (Tts1.main w argv)))) ->
             passed_timeout e = None) /\
  (forall e, In e (calls (final (run w (Tts2.main w argv)))) ->
             passed_timeout e = None).
Proof.
  split; [|split; [|split]].
  - intros e. destruct (tts3_calls w argv) as [->|(ns & key & _ & _ & ->)].
    + intros [].
    + intros [<-|[]]. reflexivity.
  - intros ns key Hp Hk res. subst res. exists (sent key (base_url_of w) ns).
    split; [now apply tts3_issued|]. split; [reflexivity|].
    split; [|split].
    + unfold waited. destruct (latency w _); simpl; lia.
    + intros Hslow.
      assert (Hexc : requests_post w (sent key (base_url_of w) ns)
                     = Requests.RequestException
                         (timeout_exc w (sent key (base_url_of w) ns))).
      { unfold requests_post. destruct Hslow as [->|(d & -> & Hd)]; [reflexivity|].
        simpl. destruct (Z.leb_spec d 60); [lia | reflexivity]. }
      split; [exact Hexc|]. split.
      { unfold waited. destruct Hslow as [->|(d & -> & Hd)]; simpl; lia. }
      rewrite (tts3_run w argv ns key Hp Hk). cbv zeta. rewrite Hexc.
      now repeat split.
    + intros d Hd Hle. unfold requests_post, waited. rewrite Hd. simpl.
      destruct (Z.leb_spec d 60); [|lia]. split; [reflexivity | lia].
  - intros e. destruct (tts1_calls w argv) as [->|(ns & _ & ->)].
    + intros [].
    + intros [<-|[]]. reflexivity.
  - intros e. destruct (tts2_calls w argv) as [->|(ns & key & _ & _ & ->)].
    + intros [].
    + intros [<-|[]]. reflexivity.
Qed.

Lemma timeout_per_script_witness :
  let w := MoreExamples.slow Examples.with_key (Some 90) (Examples.ok Examples.riff) in
  let res := run w (Tts3.main w ["Hello world"]) in
  exists p,
    calls (final res) = [HttpPost p] /\
    passed_timeout (HttpPost p) = Some (JInt 60) /\
    waited w p = 60 /\
    ending res = Exited 1 /\
    fs (final res) = ∅.
Proof.
  intros w res.
  assert (Hk : key_present w "sk-test") by (split; [reflexivity | discriminate]).
  destruct (timeout_per_script w ["Hello world"]) as (Hall & Hone & _).
  destruct (Hone {| text := "Hello world"; output := "speech"; format := "wav" |}
              "sk-test" eq_refl Hk) as (p & Hc & _ & _ & Hslow & _).
  destruct Hslow as (_ & Hw & He & _ & Hfs).
  { right. exists 90. split; [reflexivity | lia]. }
  exists p. split; [exact Hc|]. split; [apply Hall; rewrite Hc; now left|].
  split; [exact Hw|]. split; [exact He | exact Hfs].
Defined.

(** C8 as stated fails for the SDK scripts: their call carries no
    timeout. *)
Lemma sdk_scripts_pass_no_timeout :
  let w := Examples.sdk_mock Examples.with_key Examples.riff in
  map passed_timeout (calls (final (run w (Tts1.main w ["Hello world"])))) = [None] /\
  map passed_timeout (calls (final (run w (Tts2.main w ["Hello world"])))) = [None] /\
  ending (run w (Tts1.main w ["Hello world"])) = Finished.
Proof. intros w. repeat split. Qed.




End Claims.
(** ** Further properties of the parser *)

(** Use the fact that an argument string is classified as positional. *)
Ltac use_value H :=
  let Hc := fresh "Hc" in
  let He := fresh "He" in
  destruct (is_value_classify _ H) as [Hc He];
  rewrite ?Hc, ?He, ?H.

Section ParserProperties.
Import Argparse.

Lemma take_positional_extras (st : pstate) (a : string) :
  p_extras st <> [] -> p_extras (take_positional st a) <> [].
Proof.
  unfold take_positional. destruct (p_text st); simpl; [|tauto].
  intros H. destruct (p_extras st); [contradiction | discriminate].
Qed.

Lemma add_extra_extras (st : pstate) (a : string) : p_extras (add_extra st a) <> [].
Proof. simpl. destruct (p_extras st); discriminate. Qed.

Lemma positionals_extras (args : list string) (st : pstate) :
  p_extras st <> [] -> p_extras (positionals st args) <> [].
Proof.
  unfold positionals. revert st. induction args as [|a args IH]; intros st H.
  - exact H.
  - simpl. apply IH. now apply take_positional_extras.
Qed.

Lemma after_separator_extras (rest : list string) (st : pstate) :
  p_extras st <> [] -> p_extras (after_separator st rest) <> [].
Proof.
  intros H. unfold after_separator.
  destruct (p_text st); [destruct (p_fresh st)|];
    apply positionals_extras; try exact H. apply add_extra_extras.
Qed.

Lemma finish_extras (st : pstate) (ns : Namespace) :
  p_extras st <> [] -> finish st <> Parsed ns.
Proof.
  intros H Hf. apply finish_parsed in Hf as (_ & _ & _ & He). contradiction.
Qed.

Lemma store_extras (os : string) (d : dest) (choices : option (list string))
    (v : string) (st st' : pstate) :
  store os d choices v st = inr st' -> p_extras st' = p_extras st.
Proof.
  intros H. now apply store_cases in H as (x & _ & _ & He & _).
Qed.

(** Once a string is left over, the command line is not accepted. *)
Lemma consume_extras (n : nat) :
  forall (args : list string) (st : pstate) (ns : Namespace),
    (length args <= n)%nat ->
    p_extras st <> [] ->
    consume args st <> Parsed ns.
Proof.
  induction n as [|n IH]; intros args st ns Hlen He.
  - destruct args; [|simpl in Hlen; lia]. now apply finish_extras.
  - destruct args as [|a rest]; [now apply finish_extras|].
    simpl in Hlen. cbn [consume].
    destruct (String.eqb a "--").
    { apply finish_extras. now apply after_separator_extras. }
    destruct (classify a) as [|os [|d choices] [e|]| |].
    + apply IH; [lia | now apply take_positional_extras].
    + destruct (Str.startswith os "--"); [discriminate | apply cluster_not_parsed].
    + discriminate.
    + destruct (store os d choices e st) as [err|st'] eqn:Es; [discriminate|].
      apply IH; [lia|]. now rewrite (store_extras _ _ _ _ _ _ Es).
    + destruct rest as [|v rest']; [discriminate|].
      destruct (value_follows (v :: rest')); [|discriminate].
      destruct (store os d choices v st) as [err|st'] eqn:Es; [discriminate|].
      simpl in Hlen. apply IH; [lia|]. now rewrite (store_extras _ _ _ _ _ _ Es).
    + apply IH; [lia | apply add_extra_extras].
    + discriminate.
Qed.

Lemma unknown_not_separator (a : string) :
  classify a = Unknown -> String.eqb a "--" = false /\ is_value a = false.
Proof.
  intros H. split.
  - destruct (String.eqb_spec a "--") as [->|]; [discriminate | reflexivity].
  - unfold is_value. now rewrite H.
Qed.

Lemma consume_unknown (n : nat) :
  forall (pre : list string) (a : string) (post : list string) (st : pstate)
         (ns : Namespace),
    (length pre <= n)%nat ->
    classify a = Unknown ->
    ~ In "--" pre ->
    consume (pre ++ a :: post) st <> Parsed ns.
Proof.
  induction n as [|n IH]; intros pre a post st ns Hlen Ha Hsep;
    destruct (unknown_not_separator a Ha) as [Hne Hval].
  - destruct pre; [|simpl in Hlen; lia].
    cbn [app consume]. rewrite Hne, Ha.
    apply (consume_extras (length post)); [lia | apply add_extra_extras].
  - destruct pre as [|x pre'].
    { cbn [app consume]. rewrite Hne, Ha.
      apply (consume_extras (length post)); [lia | apply add_extra_extras]. }
    simpl in Hlen. rewrite <- app_comm_cons. cbn [consume].
    assert (Hx : String.eqb x "--" = false).
    { apply String.eqb_neq. intros ->. apply Hsep. now left. }
    assert (Hsep' : ~ In "--" pre') by (intros H; apply Hsep; now right).
    rewrite Hx.
    destruct (classify x) as [|os [|d choices] [e|]| |].
    + apply IH; [lia | exact Ha | exact Hsep'].
    + destruct (Str.startswith os "--"); [discriminate | apply cluster_not_parsed].
    + discriminate.
    + destruct (store os d choices e st) as [err|st']; [discriminate|].
      apply IH; [lia | exact Ha | exact Hsep'].
    + destruct pre' as [|v pre''].
      * cbn [app value_follows]. rewrite Hne, Hval. discriminate.
      * rewrite <- app_comm_cons.
        destruct (value_follows (v :: pre'' ++ a :: post)); [|discriminate].
        destruct (store os d choices v st) as [err|st']; [discriminate|].
        simpl in Hlen. apply IH; [lia | exact Ha|].
        intros H. apply Hsep'. now right.
    + apply IH; [lia | exact Ha | exact Hsep'].
    + discriminate.
Qed.

(** X1: an option the parser does not know is never accepted: a command
    line that holds one before any [--] separator does not parse to a
    namespace, whatever else it holds. *)
Theorem unknown_option_rejected
    (pre : list string) (a : string) (post : list string) (ns : Namespace) :
  classify a = Unknown ->
  ~ In "--" pre ->
  parse (pre ++ a :: post) <> Parsed ns.
Proof.
  intros Ha Hsep. unfold parse.
  destruct (first_ambiguous (pre ++ a :: post)); [discriminate|].
  now apply (consume_unknown (length pre)).
Qed.

Lemma unknown_option_rejected_witness :
  parse (["Hello world"] ++ "--fromat" :: ["mp3"])
    <> Parsed {| text := "Hello world"; output := "speech"; format := "mp3" |}.
Proof.
  apply unknown_option_rejected; [reflexivity|].
  intros [H|[]]. discriminate.
Defined.

Lemma choice_is_value (f : string) :
  In f format_choices -> is_value f = true.
Proof. intros [<-|[<-|[<-|[<-|[]]]]]; reflexivity. Qed.

(** X2: everything after a [--] separator is positional, so any string at
    all, also one that starts with a dash, is accepted as the text when it
    is written after [--]; written alone, a text is accepted only when the
    parser classifies it as positional. *)
Theorem separator_makes_text (t : string) :
  parse ["--"; t] = Parsed {| text := t; output := "speech"; format := "wav" |} /\
  (forall ns, parse [t] = Parsed ns -> is_value t = true).
Proof.
  split; [reflexivity|].
  intros ns. unfold parse, is_value. cbn [first_ambiguous consume].
  destruct (String.eqb t "--"); [discriminate|].
  destruct (classify t) as [|os [|d choices] [e|]| |]; try discriminate.
  - reflexivity.
  - destruct (Str.startswith os "--"); [discriminate|].
    intros H. now apply cluster_not_parsed in H.
  - destruct (store os d choices e initial) as [err|st'] eqn:Es; [discriminate|].
    apply store_cases in Es as (x & _ & Ht & _).
    cbn [consume]. unfold finish. rewrite Ht. discriminate.
Qed.

Lemma separator_makes_text_witness :
  is_value "Hello world" = true /\ is_value "-٣" = true.
Proof.
  split.
  - apply (proj2 (separator_makes_text "Hello world")
             {| text := "Hello world"; output := "speech"; format := "wav" |}).
    reflexivity.
  - apply (proj2 (separator_makes_text "-٣")
             {| text := "-٣"; output := "speech"; format := "wav" |}).
    reflexivity.
Defined.

(** X3: the parser takes one text only: a second positional argument is
    reported as unrecognized, and the command line is rejected. *)
Theorem second_positional_rejected (t1 t2 : string) :
  is_value t1 = true ->
  is_value t2 = true ->
  parse [t1; t2] = UsageError (UnrecognizedArguments [t2]).
Proof.
  intros H1 H2. unfold parse. cbn [first_ambiguous consume].
  use_value H1. use_value H2. reflexivity.
Qed.

Lemma second_positional_rejected_witness :
  parse ["Hello"; "world"] = UsageError (UnrecognizedArguments ["world"]).
Proof. apply second_positional_rejected; reflexivity. Defined.

(** X4: options may come before the text, after it, or on both sides: the
    namespace is the same. *)
Theorem option_order_irrelevant (t v f : string) :
  is_value t = true ->
  is_value v = true ->
  In f format_choices ->
  let ns := Parsed {| text := t; output := v; format := f |} in
  parse [t; "-o"; v; "--format"; f] = ns /\
  parse ["-o"; v; "--format"; f; t] = ns /\
  parse ["--format"; f; t; "--output"; v] = ns /\
  parse ["-o"; v; t; "--format"; f] = ns.
Proof.
  intros Ht Hv Hf ns. subst ns. pose proof (choice_is_value f Hf) as Hfv.
  unfold parse. cbn [first_ambiguous consume value_follows].
  use_value Ht. use_value Hv. unfold store, get_values.
  rewrite ?(proj2 (is_value_classify _ Hv)).
  destruct Hf as [<-|[<-|[<-|[<-|[]]]]]; repeat split.
Qed.

Lemma option_order_irrelevant_witness :
  parse ["-o"; "hello"; "--format"; "mp3"; "Hello world"]
    = Parsed {| text := "Hello world"; output := "hello"; format := "mp3" |}.
Proof.
  apply (option_order_irrelevant "Hello world" "hello" "mp3");
    [reflexivity | reflexivity | right; left; reflexivity].
Defined.

Lemma first_ambiguous_none (l : list string) :
  (forall a, In a l -> classify a <> Ambiguous) -> first_ambiguous l = None.
Proof.
  induction l as [|a l IH]; intros H; [reflexivity|]. simpl.
  destruct (String.eqb a "--"); [reflexivity|].
  pose proof (H a (or_introl eq_refl)) as Ha.
  destruct (classify a); try (apply IH; intros x Hx; apply H; now right).
  contradiction.
Qed.

Lemma consume_value_step (t : string) (rest : list string) (st : pstate) :
  is_value t = true ->
  consume (t :: rest) st = consume rest (take_positional st t).
Proof.
  intros H. destruct (is_value_classify t H) as [Hc He].
  cbn [consume]. now rewrite He, Hc.
Qed.

Lemma consume_store_step (os : string) (d : dest) (choices : option (list string))
    (v : string) (rest : list string) (st st' : pstate) :
  classify os = Optional os (Store d choices) None ->
  is_value v = true ->
  store os d choices v st = inr st' ->
  consume (os :: v :: rest) st = consume rest st'.
Proof.
  intros Hos Hv Hst. destruct (is_value_classify v Hv) as [_ He].
  assert (Hne : String.eqb os "--" = false).
  { destruct (String.eqb_spec os "--") as [->|]; [discriminate | reflexivity]. }
  cbn [consume value_follows]. now rewrite Hne, Hos, He, Hv, Hst.
Qed.

Lemma store_format (os f : string) (st : pstate) :
  In f format_choices ->
  store os Format (Some format_choices) f st
    = inr {| p_text := p_text st; p_output := p_output st; p_format := f;
             p_extras := p_extras st; p_fresh := false |}.
Proof.
  intros Hf. destruct Hf as [<-|[<-|[<-|[<-|[]]]]]; reflexivity.
Qed.

Lemma store_output (os v : string) (st : pstate) :
  is_value v = true ->
  store os Output None v st
    = inr {| p_text := p_text st; p_output := v; p_format := p_format st;
             p_extras := p_extras st; p_fresh := false |}.
Proof.
  intros Hv. destruct (is_value_classify v Hv) as [_ He].
  unfold store, get_values. now rewrite He.
Qed.

(** X5: an option given twice keeps its last value. *)
Theorem repeated_option_last_wins (t v1 v2 f1 f2 : string) :
  is_value t = true ->
  is_value v1 = true ->
  is_value v2 = true ->
  In f1 format_choices ->
  In f2 format_choices ->
  parse [t; "-o"; v1; "--format"; f1; "--output"; v2; "--format"; f2]
    = Parsed {| text := t; output := v2; format := f2 |}.
Proof.
  intros Ht H1 H2 Hf1 Hf2. unfold parse.
  pose proof (choice_is_value f1 Hf1) as Hv1.
  pose proof (choice_is_value f2 Hf2) as Hv2.
  rewrite first_ambiguous_none.
  - rewrite (consume_value_step t _ _ Ht).
    rewrite (consume_store_step "-o" Output None v1 _ _ _ eq_refl H1
               (store_output _ _ _ H1)).
    rewrite (consume_store_step "--format" Format _ f1 _ _ _ eq_refl Hv1
               (store_format _ _ _ Hf1)).
    rewrite (consume_store_step "--output" Output None v2 _ _ _ eq_refl H2
               (store_output _ _ _ H2)).
    rewrite (consume_store_step "--format" Format _ f2 _ _ _ eq_refl Hv2
               (store_format _ _ _ Hf2)).
    unfold take_positional. reflexivity.
  - intros a Hin Ha. unfold is_value in Ht, H1, H2, Hv1, Hv2. simpl in Hin.
    repeat (destruct Hin as [<-|Hin];
            [first [discriminate Ha | rewrite Ha in *; discriminate]|]).
    destruct Hin.
Qed.

Lemma repeated_option_last_wins_witness :
  parse ["Hello"; "-o"; "a"; "--format"; "mp3"; "--output"; "b"; "--format"; "flac"]
    = Parsed {| text := "Hello"; output := "b"; format := "flac" |}.
Proof.
  apply repeated_option_last_wins; try reflexivity.
  - right; left; reflexivity.
  - right; right; right; left; reflexivity.
Defined.



End ParserProperties.
(** ** Further properties of the runs *)

Ltac tts3_cases w argv :=
  let Hp := fresh "Hp" in
  let Hk := fresh "Hk" in
  let Hr := fresh "Hr" in
  let Hs := fresh "Hs" in
  let Ho := fresh "Ho" in
  let Hw := fresh "Hw" in
  let Hpr := fresh "Hpr" in
  destruct (Argparse.parse argv) as [?ns| |?e] eqn:Hp;
  [ destruct (key_cases w) as [Hk|[?key Hk]];
    [ rewrite (tts3_no_key w argv _ Hp Hk)
    | rewrite (tts3_run w argv _ _ Hp Hk); cbv zeta;
      destruct (requests_post w _) as [?r|?exc|?exc|?exc] eqn:Hr;
      [ destruct (Requests.status_code _ =? 200) eqn:Hs;
        [ destruct (Argparse.output _) as [?o|] eqn:Ho;
          [ destruct (open_wb w _ _) as [|?exc ?remains] eqn:Hw;
            [ unfold reported; destruct (print_error w _) as [?exc|] eqn:Hpr | ]
          | ]
        | ]
      | | | ] ]
  | rewrite (tts3_help w argv Hp)
  | rewrite (tts3_usage w argv _ Hp) ];
  unfold halted; cbn [final ending stdout stderr fs calls exit_code].

Ltac saved_cases w :=
  let Ha := fresh "Ha" in
  let Ho := fresh "Ho" in
  let Hw := fresh "Hw" in
  let Hpr := fresh "Hpr" in
  unfold saved; destruct (Cli.audio_of _) as [?d|] eqn:Ha;
  [ destruct (Argparse.output _) as [?o|] eqn:Ho;
    [ destruct (open_wb w _ _) as [|?exc ?remains] eqn:Hw;
      [ unfold reported; destruct (print_error w _) as [?exc|] eqn:Hpr | ]
    | ]
  | ].

Ltac tts1_cases w argv :=
  let Hp := fresh "Hp" in
  let Hk := fresh "Hk" in
  let Hr := fresh "Hr" in
  destruct (Argparse.parse argv) as [?ns| |?e] eqn:Hp;
  [ destruct (key_cases w) as [Hk|[?key Hk]];
    [ rewrite (tts1_no_key w argv _ Hp Hk)
    | rewrite (tts1_run w argv _ _ Hp Hk);
      destruct (speech_create w _ _) as [?r|?exc] eqn:Hr;
      [ saved_cases w | ] ]
  | rewrite (tts1_help w argv Hp)
  | rewrite (tts1_usage w argv _ Hp) ];
  unfold halted; cbn [final ending stdout stderr fs calls exit_code].

Ltac tts2_cases w argv :=
  let Hp := fresh "Hp" in
  let Hk := fresh "Hk" in
  let Hr := fresh "Hr" in
  destruct (Argparse.parse argv) as [?ns| |?e] eqn:Hp;
  [ destruct (key_cases w) as [Hk|[?key Hk]];
    [ rewrite (tts2_no_key w argv _ Hp Hk)
    | rewrite (tts2_run w argv _ _ Hp Hk);
      destruct (speech_create w _ _) as [?r|?exc] eqn:Hr;
      [ saved_cases w | ] ]
  | rewrite (tts2_help w argv Hp)
  | rewrite (tts2_usage w argv _ Hp) ];
  unfold halted; cbn [final ending stdout stderr fs calls exit_code].

(** Split a goal into its parts and close those that hold by
    computation or by a contradictory equation. *)
Ltac split_all :=
  repeat match goal with
         | |- _ /\ _ => split
         | |- _ <-> _ => split
         | |- _ -> _ => intro
         | |- forall _, _ => intro
         | H : exists _, _ |- _ => destruct H
         | H : _ /\ _ |- _ => destruct H
         | H : _ = _ |- _ => discriminate H
         | H : ?x <> ?x |- _ => contradiction H; reflexivity
         end;
  try reflexivity; try discriminate; eauto.

Ltac script_cases w argv Hin :=
  destruct Hin as [<-|[<-|[<-|[]]]];
  [ tts1_cases w argv | tts2_cases w argv | tts3_cases w argv ].

Section RunProperties.
Import Argparse.



(** X8: a run that ends with exit code 0 writes nothing on standard
    error, and a run that ends with another code writes nothing on standard
    output, for every script. *)
Theorem output_channels
    (w : World) (argv : list string) (main : World -> list string -> Py unit) :
  In main scripts ->
  let res := run w (main w argv) in
  (exit_code (ending res) = 0 -> stderr (final res) = []) /\
  (exit_code (ending res) <> 0 -> stdout (final res) = []).
Proof.
  intros Hin res. subst res. script_cases w argv Hin; split_all.
Qed.

Lemma output_channels_witness :
  let w := Examples.mock Examples.with_key Examples.bad_input in
  stdout (final (run w (Tts3.main w ["Hello world"]))) = [].
Proof.
  intros w.
  assert (Hin : In Tts3.main scripts) by (right; right; left; reflexivity).
  apply (proj2 (output_channels w ["Hello world"] Tts3.main Hin)).
  discriminate.
Defined.

(** X9: the only file that a run can change is its output file: a file
    whose content differs after the run is the one named by the output
    file name computed from the parsed arguments, and the output name of
    such a run is a string. *)
Theorem only_output_file_changes
    (w : World) (argv : list string) (main : World -> list string -> Py unit)
    (file : string) :
  In main scripts ->
  fs (final (run w (main w argv))) !! file <> files w !! file ->
  exists ns o,
    parse argv = Parsed ns /\ output ns = StrValue o /\
    file = realpath w (Cli.output_file o (Cli.format_text (format ns))).
Proof.
  intros Hin. script_cases w argv Hin; intros Hne;
    try (contradiction Hne; reflexivity);
    try (destruct remains; [|contradiction Hne; reflexivity]);
    do 2 eexists; (split; [reflexivity|]); (split; [eassumption|]);
    match goal with
    | |- file = ?out =>
        destruct (String.eqb_spec file out) as [Heq|Hd]; [exact Heq|];
        contradiction Hne; apply lookup_insert_ne; congruence
    end.
Qed.

Lemma only_output_file_changes_witness :
  let w := Examples.mock Examples.with_key (Examples.ok Examples.riff) in
  exists ns o,
    parse ["Hello world"] = Parsed ns /\ output ns = StrValue o /\
    "speech.wav" = realpath w (Cli.output_file o (Cli.format_text (format ns))).
Proof.
  intros w.
  assert (Hin : In Tts3.main scripts) by (right; right; left; reflexivity).
  apply (only_output_file_changes w ["Hello world"] Tts3.main "speech.wav" Hin).
  discriminate.
Defined.

Lemma key_exclusive (w : World) (key : string) :
  key_missing w -> key_present w key -> False.
Proof. intros [H|H] [Hk Hne]; rewrite H in Hk; congruence. Qed.

(** X10: no script repeats its call: a run calls [requests.post], or
    [client.audio.speech.create], at most once, and it does so exactly when
    the command line parses and the credential is present. *)
Theorem at_most_one_call
    (w : World) (argv : list string) (main : World -> list string -> Py unit) :
  In main scripts ->
  let res := run w (main w argv) in
  (length (calls (final res)) <= 1)%nat /\
  (calls (final res) <> [] <->
   (exists ns, parse argv = Parsed ns) /\ (exists key, key_present w key)).
Proof.
  intros Hin res. subst res.
  script_cases w argv Hin; split_all; simpl; try lia;
    try (exfalso; eauto using key_exclusive).
Qed.

Lemma at_most_one_call_witness :
  let w := Examples.mock Examples.with_key (Examples.ok Examples.riff) in
  calls (final (run w (Tts1.main w ["Hello world"]))) <> [].
Proof.
  intros w.
  assert (Hin : In Tts1.main scripts) by (left; reflexivity).
  apply (proj2 (proj2 (at_most_one_call w ["Hello world"] Tts1.main Hin))).
  split.
  - eexists. reflexivity.
  - exists "sk-test". split; [reflexivity | discriminate].
Defined.

(** X11: [3-tts.py] writes to the file system only after the endpoint
    has answered its request with status 200; the SDK scripts write only
    after the client has returned an object that holds audio data. *)
Theorem no_write_without_audio (w : World) (argv : list string) :
  (fs (final (run w (Tts3.main w argv))) <> files w ->
   exists ns key r,
     parse argv = Parsed ns /\ key_present w key /\
     requests_post w (sent key (base_url_of w) ns) = Requests.Responded r /\
     Requests.status_code r = 200) /\
  (fs (final (run w (Tts1.main w argv))) <> files w ->
   exists ns r d,
     parse argv = Parsed ns /\
     speech_create w "openai" (openai_call ns) = Sdk.Returned r /\
     Cli.audio_of r = Some d) /\
  (fs (final (run w (Tts2.main w argv))) <> files w ->
   exists ns key r d,
     parse argv = Parsed ns /\ key_present w key /\
     speech_create w "litellm" (litellm_call key ns) = Sdk.Returned r /\
     Cli.audio_of r = Some d).
Proof.
  split; [|split].
  - tts3_cases w argv; intros Hne; try (contradiction Hne; reflexivity);
      apply Z.eqb_eq in Hs; eauto 10.
  - tts1_cases w argv; intros Hne; try (contradiction Hne; reflexivity);
      eauto 10.
  - tts2_cases w argv; intros Hne; try (contradiction Hne; reflexivity);
      eauto 10.
Qed.

Lemma no_write_without_audio_witness :
  let w := Examples.mock Examples.with_key (Examples.ok Examples.riff) in
  exists ns key r,
    parse ["Hello world"] = Parsed ns /\ key_present w key /\
    requests_post w (sent key (base_url_of w) ns) = Requests.Responded r /\
    Requests.status_code r = 200.
Proof.
  intros w.
  apply (proj1 (no_write_without_audio w ["Hello world"])).
  intros H. apply (f_equal (fun m => m !! "speech.wav")) in H. discriminate.
Defined.

(** X12: when [3-tts.py] cannot write its output file, it ends with exit
    code 1 and a diagnostic that names the path and the cause; the
    confirmation line is not printed. *)
Theorem write_error_reported
    (w : World) (argv : list string) (ns : Namespace) (key o : string)
    (r : Requests.Response) (exc : string) (remains : option bytes) :
  parse argv = Parsed ns ->
  key_present w key ->
  requests_post w (sent key (base_url_of w) ns) = Requests.Responded r ->
  Requests.status_code r = 200 ->
  output ns = StrValue o ->
  let path := Cli.output_file o (Cli.format_text (format ns)) in
  open_wb w path (Requests.content r) = WriteFailed exc remains ->
  let res := run w (Tts3.main w argv) in
  ending res = Exited 1 /\
  stderr (final res) = [Text ("Error writing " +:+ path +:+ ": " +:+ exc +:+ nl)] /\
  stdout (final res) = [] /\
  (remains = None -> fs (final res) = files w).
Proof.
  intros Hp Hk Hr Hs Ho path Hw res. subst res path.
  rewrite (tts3_run w argv ns key Hp Hk). cbv zeta.
  rewrite Hr, Hs. simpl Z.eqb. cbv iota. rewrite Ho, Hw. unfold halted. simpl.
  repeat split. now intros ->.
Qed.

Lemma write_error_reported_witness :
  let w := MoreExamples.read_only Examples.with_key (Examples.ok Examples.riff)
             (Sdk.Raised "APIConnectionError") in
  ending (run w (Tts3.main w ["Hello world"])) = Exited 1 /\
  fs (final (run w (Tts3.main w ["Hello world"]))) = ∅.
Proof.
  intros w.
  assert (Hk : key_present w "sk-test") by (split; [reflexivity | discriminate]).
  destruct (write_error_reported w ["Hello world"] MoreExamples.hello_args
              "sk-test" "speech" (Examples.ok_response Examples.riff)
              "[Errno 30] Read-only file system" None
              eq_refl Hk eq_refl eq_refl eq_refl eq_refl) as (He & _ & _ & Hfs).
  split; [exact He | exact (Hfs eq_refl)].
Defined.

Lemma lower_choice (f : string) :
  In f format_choices -> Str.lower ("." +:+ f) = "." +:+ f.
Proof. intros [<-|[<-|[<-|[<-|[]]]]]; reflexivity. Qed.

(** The extension that a parsed format gives is in lowercase. *)
Lemma lower_format (argv : list string) (v : value) :
  format_from argv v ->
  Str.lower ("." +:+ Cli.format_text v) = "." +:+ Cli.format_text v.
Proof. destruct v as [f|]; [apply lower_choice | reflexivity]. Qed.

Lemma output_file_has_extension (b f : string) :
  Str.lower ("." +:+ f) = "." +:+ f ->
  Str.endswith (Str.lower (Cli.output_file b f)) ("." +:+ f) = true.
Proof.
  intros Hf. unfold Cli.output_file.
  destruct (Str.endswith (Str.lower b) ("." +:+ f)) eqn:E; simpl; [exact E|].
  apply endswith_spec. exists (Str.lower b).
  now rewrite lower_app, Hf.
Qed.

Lemma prefix_app (b s : string) : String.prefix b (b +:+ s) = true.
Proof.
  induction b as [|c b IH]; [now destruct s|].
  rewrite app_cons. simpl. destruct (ascii_dec c c); [exact IH | congruence].
Qed.

(** X13: the extension step is idempotent for the four formats: the name
    it returns ends with a dot and the format (in lowercase), starts with
    the given base name, and is returned unchanged when the step is applied
    to it again. *)
Theorem output_file_idempotent (b f : string) :
  In f format_choices ->
  Cli.output_file (Cli.output_file b f) f = Cli.output_file b f /\
  Str.endswith (Str.lower (Cli.output_file b f)) ("." +:+ f) = true /\
  Str.startswith (Cli.output_file b f) b = true.
Proof.
  intros Hf. pose proof (output_file_has_extension b f (lower_choice f Hf)) as He.
  split; [|split; [exact He|]].
  - unfold Cli.output_file at 1. now rewrite He.
  - unfold Str.startswith, Cli.output_file.
    destruct (negb _).
    + apply prefix_app.
    + rewrite <- (app_nil_r b) at 2. apply prefix_app.
Qed.

Lemma output_file_idempotent_witness :
  Cli.output_file (Cli.output_file "Track.FLAC" "flac") "flac" = "Track.FLAC" /\
  Cli.output_file (Cli.output_file "track" "flac") "flac" = "track.flac".
Proof.
  assert (Hf : In "flac" format_choices)
    by (right; right; right; left; reflexivity).
  split.
  - exact (proj1 (output_file_idempotent "Track.FLAC" "flac" Hf)).
  - exact (proj1 (output_file_idempotent "track" "flac" Hf)).
Defined.

(** X14: when [3-tts.py] has got status 200 and written its file, nothing
    is on standard error, and the extension of the file is the format that
    the request asked for; the confirmation line names the file, and the
    run ends normally, when the line can be printed; when it cannot, the
    exception of [print] ends the run, with the file written and nothing on
    standard output. *)
Theorem success_report
    (w : World) (argv : list string) (ns : Namespace) (key o : string)
    (r : Requests.Response) :
  parse argv = Parsed ns ->
  key_present w key ->
  requests_post w (sent key (base_url_of w) ns) = Requests.Responded r ->
  Requests.status_code r = 200 ->
  output ns = StrValue o ->
  let path := Cli.output_file o (Cli.format_text (format ns)) in
  let line := "✔ Audio saved to " +:+ path in
  open_wb w path (Requests.content r) = Written ->
  let res := run w (Tts3.main w argv) in
  (print_error w line = None ->
   ending res = Finished /\ stdout (final res) = [Text (line +:+ nl)]) /\
  (forall exc, print_error w line = Some exc ->
   ending res = Uncaught (PyError exc) /\ stdout (final res) = [] /\
   fs (final res) = <[realpath w path := Requests.content r]> (files w)) /\
  stderr (final res) = [] /\
  exists p,
    calls (final res) = [HttpPost p] /\
    assoc "response_format" (Requests.json_body p)
      = Some (Cli.value_json (format ns)) /\
    Str.endswith (Str.lower path) ("." +:+ Cli.format_text (format ns)) = true.
Proof.
  intros Hp Hk Hr Hs Ho path line Hw res. subst res line path.
  rewrite (tts3_run w argv ns key Hp Hk). cbv zeta.
  rewrite Hr, Hs. simpl Z.eqb. cbv iota. rewrite Ho, Hw. unfold reported.
  split; [|split; [|split]].
  - intros ->. now split.
  - intros exc ->. now repeat split.
  - destruct (print_error w _); reflexivity.
  - exists (sent key (base_url_of w) ns).
    split; [destruct (print_error w _); reflexivity|].
    split; [reflexivity|].
    apply output_file_has_extension, (lower_format argv).
    now destruct (parse_parsed argv ns Hp).
Qed.

Lemma success_report_witness :
  let w := Examples.mock Examples.with_key (Examples.ok Examples.riff) in
  stdout (final (run w (Tts3.main w ["Hello world"])))
    = [Text (("✔ Audio saved to " +:+ "speech.wav") +:+ nl)].
Proof.
  intros w.
  assert (Hk : key_present w "sk-test") by (split; [reflexivity | discriminate]).
  exact (proj2 (proj1 (success_report w ["Hello world"] MoreExamples.hello_args
                         "sk-test" "speech" (Examples.ok_response Examples.riff)
                         eq_refl Hk eq_refl eq_refl eq_refl eq_refl) eq_refl)).
Defined.

(** X15: [request_tts] calls [requests.post] exactly once and touches
    neither the output streams nor the file system; it returns the response
    body exactly when the status is 200; a failure of the transport (a
    [RequestException]) or of the endpoint (another status) leaves it as a
    [RuntimeError] with the diagnostic; any other exception of the call
    leaves it unchanged, be it a [RuntimeError] or not. *)
Theorem request_tts_contract
    (w : World) (api_key text : string) (audio_format : value)
    (base_url model voice : string) (instructions : option string) (st : Proc) :
  let out := Tts3.request_tts w api_key text audio_format base_url
               model voice instructions st in
  exists p,
    calls (snd out) = calls st ++ [HttpPost p] /\
    stdout (snd out) = stdout st /\
    stderr (snd out) = stderr st /\
    fs (snd out) = fs st /\
    assoc "instructions" (Requests.json_body p)
      = Some (from_option JStr JNull instructions) /\
    ((exists r, requests_post w p = Requests.Responded r /\
                Requests.status_code r = 200 /\
                fst out = inr (Requests.content r)) \/
     (exists r, requests_post w p = Requests.Responded r /\
                Requests.status_code r <> 200 /\
                fst out = inl (RuntimeError (api_error w r))) \/
     (exists exc, requests_post w p = Requests.RequestException exc /\
                  fst out = inl (RuntimeError
                                   (network_error (Requests.url p) exc))) \/
     (exists exc, requests_post w p = Requests.RuntimeError exc /\
                  fst out = inl (RuntimeError exc)) \/
     (exists exc, requests_post w p = Requests.Raised exc /\
                  fst out = inl (PyError exc))).
Proof.
  intros out. subst out. unfold Tts3.request_tts. unfold_py.
  eexists.
  destruct (requests_post w _) as [r|exc|exc|exc] eqn:Hr; simpl.
  - destruct (Requests.status_code r =? 200) eqn:Hs; simpl.
    + apply Z.eqb_eq in Hs. repeat split. left. exists r. auto.
    + apply Z.eqb_neq in Hs. repeat split. right; left. exists r. auto.
  - repeat split. right; right; left. exists exc. auto.
  - repeat split. right; right; right; left. exists exc. auto.
  - repeat split. right; right; right; right. exists exc. auto.
Qed.

Lemma app_inv_tail (s1 s2 t : string) : s1 +:+ t = s2 +:+ t -> s1 = s2.
Proof.
  intros H.
  assert (Hl : String.length s1 = String.length s2).
  { apply (f_equal String.length) in H. rewrite !app_length in H. lia. }
  revert s2 H Hl. induction s1 as [|x s1 IH]; intros [|y s2] H Hl;
    try discriminate; [reflexivity|].
  rewrite !app_cons in H. injection H as -> H.
  f_equal. apply IH; [exact H | simpl in Hl; lia].
Qed.

(** X16: two base URLs lead to the same request URL exactly when they are
    equal up to trailing slashes; any number of trailing slashes on the base
    URL leaves the request URL unchanged. *)
Theorem same_endpoint (u1 u2 : string) (n : nat) :
  (Tts3.request_url u1 = Tts3.request_url u2 <->
   Str.rstrip "/" u1 = Str.rstrip "/" u2) /\
  Tts3.request_url (u1 +:+ Str.repeat "/" n) = Tts3.request_url u1.
Proof.
  unfold Tts3.request_url. split; [split|].
  - apply app_inv_tail.
  - now intros ->.
  - now rewrite rstrip_app_repeat.
Qed.

(** X17: when the SDK client returns an object that holds audio bytes, the
    output name is a string and the file can be written, [1-tts.py] and
    [2-tts.py] leave exactly those bytes in the output file and nothing on
    standard error; they print the confirmation line and end normally when
    the line can be printed, and end on the exception of [print]
    otherwise. *)
Theorem sdk_success_writes_audio
    (w : World) (argv : list string) (ns : Namespace) (key o : string)
    (r : Sdk.Response) (d : bytes) :
  parse argv = Parsed ns ->
  key_present w key ->
  Cli.audio_of r = Some d ->
  output ns = StrValue o ->
  let path := Cli.output_file o (Cli.format_text (format ns)) in
  let line := "✔ Audio saved to " +:+ path in
  open_wb w path d = Written ->
  let done (res : Result) :=
    fs (final res) = <[realpath w path := d]> (files w) /\
    stderr (final res) = [] /\
    (print_error w line = None ->
     ending res = Finished /\ stdout (final res) = [Text (line +:+ nl)]) /\
    (forall exc, print_error w line = Some exc ->
     ending res = Uncaught (PyError exc) /\ stdout (final res) = []) in
  (speech_create w "openai" (openai_call ns) = Sdk.Returned r ->
   done (run w (Tts1.main w argv))) /\
  (speech_create w "litellm" (litellm_call key ns) = Sdk.Returned r ->
   done (run w (Tts2.main w argv))).
Proof.
  intros Hp Hk Ha Ho path line Hw done. subst done line path. split; intros Hr.
  - rewrite (tts1_run w argv ns key Hp Hk), Hr. unfold saved, reported.
    rewrite Ha, Ho, Hw.
    destruct (print_error w _) as [e|]; unfold halted; simpl;
      (split; [reflexivity|]); (split; [reflexivity|]).
    + split; [discriminate|]. intros exc' Heq. injection Heq as <-. now split.
    + split; [now split | discriminate].
  - rewrite (tts2_run w argv ns key Hp Hk), Hr. unfold saved, reported.
    rewrite Ha, Ho, Hw.
    destruct (print_error w _) as [e|]; unfold halted; simpl;
      (split; [reflexivity|]); (split; [reflexivity|]).
    + split; [discriminate|]. intros exc' Heq. injection Heq as <-. now split.
    + split; [now split | discriminate].
Qed.

Lemma sdk_success_writes_audio_witness :
  let w := MoreExamples.sdk_world Examples.with_key
             (Sdk.Returned (MoreExamples.with_content Examples.riff)) in
  fs (final (run w (Tts1.main w ["Hello world"])))
    = <["speech.wav" := Examples.riff]> ∅ /\
  ending (run w (Tts2.main w ["Hello world"])) = Finished.
Proof.
  intros w.
  assert (Hk : key_present w "sk-test") by (split; [reflexivity | discriminate]).
  destruct (sdk_success_writes_audio w ["Hello world"] MoreExamples.hello_args
              "sk-test" "speech" (MoreExamples.with_content Examples.riff)
              Examples.riff eq_refl Hk eq_refl eq_refl eq_refl) as [H1 H2].
  split.
  - exact (proj1 (H1 eq_refl)).
  - exact (proj1 (proj1 (proj2 (proj2 (H2 eq_refl))) eq_refl)).
Defined.


(** X18: the SDK scripts take the audio from the [audio] attribute when
    the returned object has one, else from [content], else from [read()];
    when none of them gives data the run ends with exit code 1 and a
    diagnostic, and no file is written. *)
Theorem sdk_audio_extraction
    (w : World) (argv : list string) (ns : Namespace) (key : string)
    (r : Sdk.Response) :
  parse argv = Parsed ns ->
  key_present w key ->
  speech_create w "openai" (openai_call ns) = Sdk.Returned r ->
  speech_create w "litellm" (litellm_call key ns) = Sdk.Returned r ->
  (forall a, Sdk.audio r = Some a -> Cli.audio_of r = Some a) /\
  (forall c, Sdk.audio r = None -> Sdk.content r = Some c -> Cli.audio_of r = c) /\
  (Cli.audio_of r = None ->
   forall main, In main [Tts1.main; Tts2.main] ->
     let res := run w (main w argv) in
     ending res = Exited 1 /\
     stderr (final res)
       = [Text ("Error: Could not extract audio data from response." +:+ nl)] /\
     stdout (final res) = [] /\
     fs (final res) = files w).
Proof.
  intros Hp Hk H1 H2. split; [|split].
  - intros a Ha. unfold Cli.audio_of. now rewrite Ha.
  - intros c Ha Hc. unfold Cli.audio_of. now rewrite Ha, Hc.
  - intros Hnone main [<-|[<-|[]]] res; subst res.
    + rewrite (tts1_run w argv ns key Hp Hk), H1. unfold saved.
      rewrite Hnone. unfold halted. simpl. repeat split.
    + rewrite (tts2_run w argv ns key Hp Hk), H2. unfold saved.
      rewrite Hnone. unfold halted. simpl. repeat split.
Qed.

Lemma sdk_audio_extraction_witness :
  let w := MoreExamples.sdk_world Examples.with_key
             (Sdk.Returned MoreExamples.without_audio) in
  ending (run w (Tts1.main w ["Hello world"])) = Exited 1 /\
  fs (final (run w (Tts1.main w ["Hello world"]))) = ∅.
Proof.
  intros w.
  assert (Hk : key_present w "sk-test") by (split; [reflexivity | discriminate]).
  destruct (sdk_audio_extraction w ["Hello world"] MoreExamples.hello_args
              "sk-test" MoreExamples.without_audio eq_refl Hk eq_refl eq_refl)
    as (_ & _ & Hnone).
  destruct (Hnone eq_refl Tts1.main (or_introl eq_refl)) as (He & _ & _ & Hfs).
  split; [exact He | exact Hfs].
Defined.

(** X19: the SDK scripts do not catch what the client raises: the
    exception reaches the top level, the exit code is 1, the scripts print
    no diagnostic of their own, and no file is written. *)
Theorem sdk_exception_uncaught
    (w : World) (argv : list string) (ns : Namespace) (key exc : string) :
  parse argv = Parsed ns ->
  key_present w key ->
  let crashed (res : Result) :=
    ending res = Uncaught (SdkError exc) /\
    exit_code (ending res) = 1 /\
    stdout (final res) = [] /\
    stderr (final res) = [] /\
    fs (final res) = files w in
  (speech_create w "openai" (openai_call ns) = Sdk.Raised exc ->
   crashed (run w (Tts1.main w argv))) /\
  (speech_create w "litellm" (litellm_call key ns) = Sdk.Raised exc ->
   crashed (run w (Tts2.main w argv))).
Proof.
  intros Hp Hk crashed. subst crashed. split; intros Hr.
  - rewrite (tts1_run w argv ns key Hp Hk), Hr. unfold halted. simpl.
    repeat split.
  - rewrite (tts2_run w argv ns key Hp Hk), Hr. unfold halted. simpl.
    repeat split.
Qed.

Lemma sdk_exception_uncaught_witness :
  let w := MoreExamples.sdk_world Examples.with_key
             (Sdk.Raised "APIConnectionError") in
  ending (run w (Tts2.main w ["Hello world"]))
    = Uncaught (SdkError "APIConnectionError").
Proof.
  intros w.
  assert (Hk : key_present w "sk-test") by (split; [reflexivity | discriminate]).
  destruct (sdk_exception_uncaught w ["Hello world"] MoreExamples.hello_args
              "sk-test" "APIConnectionError" eq_refl Hk) as [_ H2].
  exact (proj1 (H2 eq_refl)).
Defined.

(** X20: unlike [3-tts.py], the SDK scripts do not catch a failed write:
    when the output name is a string and the file cannot be written, the
    [OSError] reaches the top level, the exit code is 1, and neither the
    confirmation line nor a diagnostic of the script is printed. *)
Theorem sdk_write_error_uncaught
    (w : World) (argv : list string) (ns : Namespace) (key o : string)
    (r : Sdk.Response) (d : bytes) (exc : string) (remains : option bytes) :
  parse argv = Parsed ns ->
  key_present w key ->
  Cli.audio_of r = Some d ->
  output ns = StrValue o ->
  open_wb w (Cli.output_file o (Cli.format_text (format ns))) d
    = WriteFailed exc remains ->
  let crashed (res : Result) :=
    ending res = Uncaught (OSError exc) /\
    exit_code (ending res) = 1 /\
    stdout (final res) = [] /\
    stderr (final res) = [] in
  (speech_create w "openai" (openai_call ns) = Sdk.Returned r ->
   crashed (run w (Tts1.main w argv))) /\
  (speech_create w "litellm" (litellm_call key ns) = Sdk.Returned r ->
   crashed (run w (Tts2.main w argv))).
Proof.
  intros Hp Hk Ha Ho Hw crashed. subst crashed. split; intros Hr.
  - rewrite (tts1_run w argv ns key Hp Hk), Hr. unfold saved.
    rewrite Ha, Ho, Hw. unfold halted. simpl. repeat split.
  - rewrite (tts2_run w argv ns key Hp Hk), Hr. unfold saved.
    rewrite Ha, Ho, Hw. unfold halted. simpl. repeat split.
Qed.

Lemma sdk_write_error_uncaught_witness :
  let w := MoreExamples.read_only Examples.with_key (Examples.ok Examples.riff)
             (Sdk.Returned (MoreExamples.with_content Examples.riff)) in
  ending (run w (Tts1.main w ["Hello world"]))
    = Uncaught (OSError "[Errno 30] Read-only file system").
Proof.
  intros w.
  assert (Hk : key_present w "sk-test") by (split; [reflexivity | discriminate]).
  destruct (sdk_write_error_uncaught w ["Hello world"] MoreExamples.hello_args
              "sk-test" "speech" (MoreExamples.with_content Examples.riff)
              Examples.riff "[Errno 30] Read-only file system" None
              eq_refl Hk eq_refl eq_refl eq_refl)
    as [H1 _].
  exact (proj1 (H1 eq_refl)).
Defined.

(** X21: the parser accepts every abbreviation of a long option: each
    proper prefix of [--output] that is longer than [--] sets the output
    name, and each such prefix of [--format] sets the format; [--] followed
    by [=] alone is ambiguous and rejected. *)
Theorem long_option_abbreviations (t v f p : string) :
  is_value t = true ->
  is_value v = true ->
  In f format_choices ->
  (In p ["--o"; "--ou"; "--out"; "--outp"; "--outpu"; "--output"] ->
   parse [t; p; v] = Parsed {| text := t; output := v; format := "wav" |}) /\
  (In p ["--f"; "--fo"; "--for"; "--form"; "--forma"; "--format"] ->
   parse [t; p; f] = Parsed {| text := t; output := "speech"; format := f |}) /\
  parse [t; "--=" +:+ v] = UsageError (AmbiguousOption ("--=" +:+ v)).
Proof.
  intros Ht Hv Hf. pose proof (choice_is_value f Hf) as Hfv.
  unfold parse. cbn [first_ambiguous consume value_follows].
  use_value Ht. use_value Hv. unfold store, get_values.
  rewrite ?(proj2 (is_value_classify _ Hv)). split; [|split].
  - intros Hp. repeat (destruct Hp as [<-|Hp]; [reflexivity|]). destruct Hp.
  - intros Hp.
    destruct Hf as [<-|[<-|[<-|[<-|[]]]]];
      repeat (destruct Hp as [<-|Hp]; [reflexivity|]); destruct Hp.
  - assert (Ha : classify ("--=" +:+ v) = Ambiguous) by reflexivity.
    assert (He' : String.eqb ("--=" +:+ v) "--" = false) by reflexivity.
    now rewrite He', Ha.
Qed.

Lemma long_option_abbreviations_witness :
  parse ["Hello"; "--out"; "hello"]
    = Parsed {| text := "Hello"; output := "hello"; format := "wav" |}.
Proof.
  apply (proj1 (long_option_abbreviations "Hello" "hello" "wav" "--out"
                  eq_refl eq_refl (or_introl eq_refl))).
  right; right; left; reflexivity.
Defined.

(** X22: the extension step never returns an empty file name; for an
    empty base name it returns the extension alone. *)
Theorem output_file_not_empty (b f : string) :
  Cli.output_file b f <> "" /\ Cli.output_file "" f = "." +:+ f.
Proof.
  split; [|reflexivity].
  unfold Cli.output_file.
  destruct (Str.endswith (Str.lower b) ("." +:+ f)) eqn:E; simpl.
  - intros ->. discriminate.
  - destruct b; discriminate.
Qed.

(** X23: [1-tts.py] and [2-tts.py] differ only in the call they hand to
    their client: whenever the two clients answer alike, the two scripts
    end the same way, print the same and leave the same file system. *)
Theorem sdk_scripts_agree (w : World) (argv : list string) :
  (forall ns key,
     speech_create w "openai" (openai_call ns)
       = speech_create w "litellm" (litellm_call key ns)) ->
  let r1 := run w (Tts1.main w argv) in
  let r2 := run w (Tts2.main w argv) in
  ending r1 = ending r2 /\
  stdout (final r1) = stdout (final r2) /\
  stderr (final r1) = stderr (final r2) /\
  fs (final r1) = fs (final r2).
Proof.
  intros Hsame r1 r2. subst r1 r2.
  destruct (parse argv) as [ns| |e] eqn:Hp.
  - destruct (key_cases w) as [Hk|[key Hk]].
    + rewrite (tts1_no_key w argv ns Hp Hk), (tts2_no_key w argv ns Hp Hk).
      repeat split.
    + rewrite (tts1_run w argv ns key Hp Hk), (tts2_run w argv ns key Hp Hk).
      rewrite (Hsame ns key).
      destruct (speech_create w "litellm" _) as [r|exc]; [|repeat split].
      unfold saved. destruct (Cli.audio_of r) as [d|]; [|repeat split].
      destruct (output ns) as [o|]; [|repeat split].
      destruct (open_wb w _ d); [|repeat split].
      unfold reported. destruct (print_error w _); repeat split.
  - rewrite (tts1_help w argv Hp), (tts2_help w argv Hp). repeat split.
  - rewrite (tts1_usage w argv e Hp), (tts2_usage w argv e Hp). repeat split.
Qed.

Lemma sdk_scripts_agree_witness :
  let w := MoreExamples.sdk_world Examples.with_key
             (Sdk.Returned (MoreExamples.with_content Examples.riff)) in
  fs (final (run w (Tts1.main w ["Hello world"])))
    = fs (final (run w (Tts2.main w ["Hello world"]))).
Proof.
  intros w.
  exact (proj2 (proj2 (proj2
           (sdk_scripts_agree w ["Hello world"] (fun _ _ => eq_refl))))).
Defined.



(** X25: [3-tts.py] reports only the failures that [request_tts] raises
    as [RuntimeError]: when [requests.post] raises an exception that is
    neither a [RequestException] nor a [RuntimeError], the exception reaches
    the top level, the exit code is 1, the script prints no diagnostic of
    its own, and no file is written; a [RuntimeError] of the call is
    reported with its own text. *)
Theorem unexpected_exception_uncaught
    (w : World) (argv : list string) (ns : Namespace) (key exc : string) :
  parse argv = Parsed ns ->
  key_present w key ->
  let res := run w (Tts3.main w argv) in
  (requests_post w (sent key (base_url_of w) ns) = Requests.Raised exc ->
   ending res = Uncaught (PyError exc) /\
   exit_code (ending res) = 1 /\
   stdout (final res) = [] /\
   stderr (final res) = [] /\
   fs (final res) = files w) /\
  (requests_post w (sent key (base_url_of w) ns) = Requests.RuntimeError exc ->
   ending res = Exited 1 /\
   stdout (final res) = [] /\
   stderr (final res) = [Text (exc +:+ nl)] /\
   fs (final res) = files w).
Proof.
  intros Hp Hk res. subst res.
  rewrite (tts3_run w argv ns key Hp Hk). cbv zeta.
  split; intros ->; now repeat split.
Qed.

Lemma unexpected_exception_uncaught_witness :
  let w := Examples.mock Examples.with_key
             (Requests.Raised "'latin-1' codec can't encode character") in
  ending (run w (Tts3.main w ["Hello world"]))
    = Uncaught (PyError "'latin-1' codec can't encode character").
Proof.
  intros w.
  assert (Hk : key_present w "sk-test") by (split; [reflexivity | discriminate]).
  exact (proj1 (proj1 (unexpected_exception_uncaught w ["Hello world"]
                         MoreExamples.hello_args "sk-test"
                         "'latin-1' codec can't encode character"
                         eq_refl Hk) eq_refl)).
Defined.

End RunProperties.
